(** * The cycle-exact 6502 driver of 6502.ts: [StateMachineCpu]

    A shallow embedding of [src/machine/cpu/StateMachineCpu.ts].  The driver
    is a record of its fields; every method is a function on that record.
    The bus is an external object whose state is passed explicitly; every
    bus access and every poll is also written to a trace of events, and a
    [throw] of [cycle] is an error result. *)

From Stdlib Require Import ZArith List Bool Lia.
Import ListNotations.
Local Open Scope Z_scope.

(** ** CpuInterface *)

Module CpuInterface.

(** Modelled from the spec: the enum [CpuInterface.Flags] is declared in
    [CpuInterface.ts], which is not part of the sources at hand.  The
    values are the flag encoding of the data model,
    [{N=0x80, V=0x40, E=0x20, B=0x10, D=0x08, I=0x04, Z=0x02, C=0x01}]. *)
Module Flags.
Definition c : Z := 0x01.
Definition z : Z := 0x02.
Definition i : Z := 0x04.
Definition d : Z := 0x08.
Definition b : Z := 0x10.
Definition e : Z := 0x20.
Definition v : Z := 0x40.
Definition n : Z := 0x80.
End Flags.

(** Modelled from the spec: the driver's execution phase
    [{boot, execute, fetch}] ([CpuInterface.ExecutionState]). *)
Inductive ExecutionState : Type := boot | fetch | execute.

(** Modelled from the spec: [CpuInterface.State], the register file with
    the two interrupt latches. *)
Record State : Type := mkState {
  a : Z;
  x : Z;
  y : Z;
  s : Z;
  p : Z;
  flags : Z;
  irq : bool;
  nmi : bool
}.

Definition set_p (v : Z) (st : State) : State :=
  mkState (a st) (x st) (y st) (s st) v (flags st) (irq st) (nmi st).
Definition set_flags (v : Z) (st : State) : State :=
  mkState (a st) (x st) (y st) (s st) (p st) v (irq st) (nmi st).
Definition set_irq (v : bool) (st : State) : State :=
  mkState (a st) (x st) (y st) (s st) (p st) (flags st) v (nmi st).
Definition set_nmi (v : bool) (st : State) : State :=
  mkState (a st) (x st) (y st) (s st) (p st) (flags st) (irq st) v.

End CpuInterface.

(** ** StateMachineInterface *)

Module StateMachineInterface.
Import CpuInterface.

(** Modelled from the spec: [StateMachineInterface.CycleType] has the two
    kinds [read] and [write].  The [switch] of [cycle] has a [default]
    branch, so a value outside the enum is representable too. *)
Inductive CycleType : Type :=
| read
| write
| unknown (tag : Z).

(** Modelled from the spec: the microcycle result
    [{kind, address, value, pollInterrupts, nextStep}].  [nextStep] is a
    closure over the CPU state object the machine shares with the driver:
    it receives the bus value, may change the state, and returns the next
    result or [null] (here [None]).  The fields of a result are those the
    driver finds when it services it; the driver clears [pollInterrupts] on
    the result it holds before it calls [nextStep]. *)
#[warnings="-register-all"] Inductive Result : Type := mkResult {
  cycleType : CycleType;
  address : Z;
  value : Z;
  pollInterrupts : bool;
  nextStep : Z -> State -> State * option Result
}.

Definition set_pollInterrupts (v : bool) (r : Result) : Result :=
  mkResult (cycleType r) (address r) (value r) v (nextStep r).

(** Modelled from the spec: a state machine is re-initialized by
    [reset(operand)], which returns the first result.  The driver calls it
    with [undefined]; the machine reads the shared CPU state. *)
Record StateMachine : Type := mkStateMachine {
  reset : State -> Result
}.

Definition isRead (t : CycleType) : bool :=
  match t with read => true | _ => false end.

Definition isWrite (t : CycleType) : bool :=
  match t with write => true | _ => false end.

End StateMachineInterface.

Import CpuInterface.
Import StateMachineInterface.

(** ** What one call of [cycle] does to the outside *)

Inductive Event : Type :=
| BusRead (addr : Z)
| BusWrite (addr val : Z)
| Poll
| InvalidInstruction.

Inductive Error : Type :=
| InvalidCycleType   (* throw new Error('invalid cycle type') *)
| NullResult.        (* property access on a null _lastResult *)

Definition isBusOp (e : Event) : bool :=
  match e with BusRead _ | BusWrite _ _ => true | _ => false end.

Definition isBusRead (e : Event) : bool :=
  match e with BusRead _ => true | _ => false end.

Definition isPoll (e : Event) : bool :=
  match e with Poll => true | _ => false end.

Definition busOps (evs : list Event) : list Event := filter isBusOp evs.
Definition busReads (evs : list Event) : list Event := filter isBusRead evs.
Definition polls (evs : list Event) : nat := length (filter isPoll evs).

(** ** StateMachineCpu *)

Section StateMachineCpu.

(** The bus collaborator: [read(addr)] and [write(addr, value)], with side
    effects that the core cannot see. *)
Variable Bus : Type.
Variable bus_read : Bus -> Z -> Z * Bus.
Variable bus_write : Bus -> Z -> Z -> Bus.

(** The optional generator: [int(upper)]. *)
Variable Rng : Type.
Variable rng_int : Rng -> Z -> Z * Rng.

(** The host's invalid-instruction callback.  Its body is host code; the
    call is recorded as an event.  Whatever the callback does to the driver
    through the public methods, it does immediately before [_fetch] and
    [cycle] return, so it is the same as the host calling these methods
    right after [cycle]. *)
Variable Callback : Type.

(** The machines from [./statemachine/vector] and the [Compiler]. *)
Variable opBoot : StateMachine.
Variable opIrq : StateMachine.
Variable opNmi : StateMachine.
Variable compile : Z -> option StateMachine.

Record Cpu : Type := mkCpu {
  executionState : ExecutionState;
  state : State;
  _invalidInstructionCallback : option Callback;
  _lastResult : option Result;
  _interruptPending : bool;
  _nmiPending : bool;
  _halt : bool;
  _pollInterruptsAfterLastInstruction : bool;
  _lastInstructionPointer : Z;
  _rng : option Rng
}.

Definition set_executionState (v : ExecutionState) (d : Cpu) : Cpu :=
  mkCpu v (state d) (_invalidInstructionCallback d) (_lastResult d)
    (_interruptPending d) (_nmiPending d) (_halt d)
    (_pollInterruptsAfterLastInstruction d) (_lastInstructionPointer d) (_rng d).
Definition set_state (v : State) (d : Cpu) : Cpu :=
  mkCpu (executionState d) v (_invalidInstructionCallback d) (_lastResult d)
    (_interruptPending d) (_nmiPending d) (_halt d)
    (_pollInterruptsAfterLastInstruction d) (_lastInstructionPointer d) (_rng d).
Definition set_invalidInstructionCallback (v : option Callback) (d : Cpu) : Cpu :=
  mkCpu (executionState d) (state d) v (_lastResult d)
    (_interruptPending d) (_nmiPending d) (_halt d)
    (_pollInterruptsAfterLastInstruction d) (_lastInstructionPointer d) (_rng d).
Definition set_lastResult (v : option Result) (d : Cpu) : Cpu :=
  mkCpu (executionState d) (state d) (_invalidInstructionCallback d) v
    (_interruptPending d) (_nmiPending d) (_halt d)
    (_pollInterruptsAfterLastInstruction d) (_lastInstructionPointer d) (_rng d).
Definition set_interruptPending (v : bool) (d : Cpu) : Cpu :=
  mkCpu (executionState d) (state d) (_invalidInstructionCallback d) (_lastResult d)
    v (_nmiPending d) (_halt d)
    (_pollInterruptsAfterLastInstruction d) (_lastInstructionPointer d) (_rng d).
Definition set_nmiPending (v : bool) (d : Cpu) : Cpu :=
  mkCpu (executionState d) (state d) (_invalidInstructionCallback d) (_lastResult d)
    (_interruptPending d) v (_halt d)
    (_pollInterruptsAfterLastInstruction d) (_lastInstructionPointer d) (_rng d).
Definition set_halt (v : bool) (d : Cpu) : Cpu :=
  mkCpu (executionState d) (state d) (_invalidInstructionCallback d) (_lastResult d)
    (_interruptPending d) (_nmiPending d) v
    (_pollInterruptsAfterLastInstruction d) (_lastInstructionPointer d) (_rng d).
Definition set_pollInterruptsAfterLastInstruction (v : bool) (d : Cpu) : Cpu :=
  mkCpu (executionState d) (state d) (_invalidInstructionCallback d) (_lastResult d)
    (_interruptPending d) (_nmiPending d) (_halt d)
    v (_lastInstructionPointer d) (_rng d).
Definition set_lastInstructionPointer (v : Z) (d : Cpu) : Cpu :=
  mkCpu (executionState d) (state d) (_invalidInstructionCallback d) (_lastResult d)
    (_interruptPending d) (_nmiPending d) (_halt d)
    (_pollInterruptsAfterLastInstruction d) v (_rng d).
Definition set_rng (v : option Rng) (d : Cpu) : Cpu :=
  mkCpu (executionState d) (state d) (_invalidInstructionCallback d) (_lastResult d)
    (_interruptPending d) (_nmiPending d) (_halt d)
    (_pollInterruptsAfterLastInstruction d) (_lastInstructionPointer d) v.

(** [_operations]: the constructor stores [compiler.compile(op)] for
    [op = 0 .. 255]; every other index of the array is undefined. *)
Definition _operations (opcode : Z) : option StateMachine :=
  if (0 <=? opcode) && (opcode <? 256) then compile opcode else None.

(** [this._rng ? this._rng.int(upper) : 0] *)
Definition rngInt (upper : Z) (g : option Rng) : Z * option Rng :=
  match g with
  | Some g0 => let (v, g1) := rng_int g0 upper in (v, Some g1)
  | None => (0, None)
  end.

Definition reset (d : Cpu) : Cpu :=
  let (va, g1) := rngInt 0xff (_rng d) in
  let (vx, g2) := rngInt 0xff g1 in
  let (vy, g3) := rngInt 0xff g2 in
  let (vp, g4) := rngInt 0xffff g3 in
  let (vf, g5) := rngInt 0xff g4 in
  let st :=
    mkState va vx vy 0xfd vp
      (Z.lor (Z.lor (Z.lor vf Flags.i) Flags.e) Flags.b)
      false false in
  mkCpu boot st (_invalidInstructionCallback d)
    (Some (StateMachineInterface.reset opBoot st))
    false false false
    (_pollInterruptsAfterLastInstruction d) 0 g5.

(** The field initializers of the class, before the constructor body. *)
Definition initial (g : option Rng) : Cpu :=
  mkCpu boot (mkState 0 0 0 0 0 0 false false) None None
    false false false false 0 g.

(** [new StateMachineCpu(bus, rng)] *)
Definition construct (g : option Rng) : Cpu := reset (initial g).

Definition setInterrupt (i : bool) (d : Cpu) : Cpu := set_interruptPending i d.
Definition isInterrupt (d : Cpu) : bool := _interruptPending d.
Definition nmi (d : Cpu) : Cpu := set_nmiPending true d.
Definition halt (d : Cpu) : Cpu := set_halt true d.
Definition resume (d : Cpu) : Cpu := set_halt false d.
Definition isHalt (d : Cpu) : bool := _halt d.
Definition setInvalidInstructionCallback (cb : option Callback) (d : Cpu) : Cpu :=
  set_invalidInstructionCallback cb d.
Definition getInvalidInstructionCallback (d : Cpu) : option Callback :=
  _invalidInstructionCallback d.
Definition getLastInstructionPointer (d : Cpu) : Z := _lastInstructionPointer d.

(** [this.state.flags & CpuInterface.Flags.i], as a condition *)
Definition flagI (st : State) : bool :=
  negb (Z.land (flags st) Flags.i =? 0).

Definition _pollInterrupts (d : Cpu) : Cpu :=
  let d1 := set_state (set_irq false (state d)) d in
  if _nmiPending d1 then
    set_nmiPending false (set_state (set_nmi true (state d1)) d1)
  else if _interruptPending d1
          && negb (CpuInterface.nmi (state d1))
          && negb (flagI (state d1))
  then set_state (set_irq true (state d1)) d1
  else d1.

Definition _fetch (bus : Bus) (d : Cpu) : list Event * Bus * Cpu :=
  let '(ev0, d1) :=
    if _pollInterruptsAfterLastInstruction d
    then ([Poll], _pollInterrupts d) else ([], d) in
  let d2 := set_lastInstructionPointer (p (state d1)) d1 in
  let '(opcode, bus') := bus_read bus (p (state d2)) in
  let ev1 := ev0 ++ [BusRead (p (state d2))] in
  let '(operation, d3) :=
    if CpuInterface.nmi (state d2) then
      (Some opNmi, set_pollInterruptsAfterLastInstruction false d2)
    else if irq (state d2) then
      (Some opIrq, set_pollInterruptsAfterLastInstruction false d2)
    else
      (_operations opcode,
       set_pollInterruptsAfterLastInstruction true
         (set_state (set_p (Z.land (p (state d2) + 1) 0xffff) (state d2)) d2)) in
  match operation with
  | None =>
      match _invalidInstructionCallback d3 with
      | Some _ => (ev1 ++ [InvalidInstruction], bus', d3)
      | None => (ev1, bus', d3)
      end
  | Some operation =>
      let d4 := set_executionState execute d3 in
      (ev1, bus',
       set_lastResult (Some (StateMachineInterface.reset operation (state d4))) d4)
  end.

(** The guard at the top of [cycle]. *)
Definition frozen (d : Cpu) : bool :=
  _halt d &&
  match _lastResult d with
  | None => true
  | Some r => isRead (cycleType r)
  end.

Definition isFetch (e : ExecutionState) : bool :=
  match e with fetch => true | _ => false end.

(** [cycle] after the [switch]: the part from [if (pollInterrupts)] to the
    end, for the result [r] that is in [_lastResult] and the bus value. *)
Definition honorPoll (r : Result) (d : Cpu) : list Event * Result * Cpu :=
  if pollInterrupts r then
    let d1 := _pollInterrupts d in
    let r1 := set_pollInterrupts false r in
    ([Poll], r1,
     set_pollInterruptsAfterLastInstruction false (set_lastResult (Some r1) d1))
  else ([], r, d).

Definition advance (r : Result) (v : Z) (d : Cpu) : Cpu :=
  let (st, next) := nextStep r v (state d) in
  let d1 := set_lastResult next (set_state st d) in
  match next with
  | None => set_executionState fetch d1
  | Some _ => d1
  end.

Definition finish (r : Result) (v : Z) (d : Cpu) : list Event * Cpu :=
  let '(ev, r1, d1) := honorPoll r d in
  (ev, advance r1 v d1).

Definition cycle (bus : Bus) (d : Cpu) : Error + list Event * Bus * Cpu :=
  if frozen d then inr ([], bus, d)
  else if isFetch (executionState d) then inr (_fetch bus d)
  else
    match _lastResult d with
    | None => inl NullResult
    | Some r =>
        match cycleType r with
        | read =>
            let (v, bus') := bus_read bus (address r) in
            let (ev, d') := finish r v d in
            inr (BusRead (address r) :: ev, bus', d')
        | write =>
            let v := value r in
            let bus' := bus_write bus (address r) v in
            let (ev, d') := finish r v d in
            inr (BusWrite (address r) v :: ev, bus', d')
        | unknown _ => inl InvalidCycleType
        end
    end.

(** ** Execution histories *)

(** What the host can do between two bus ticks: call a public method of the
    driver, or let other hardware act on the shared bus. *)
Inductive Call : Type :=
| CallReset
| CallSetInterrupt (i : bool)
| CallNmi
| CallHalt
| CallResume
| CallSetInvalidInstructionCallback (cb : option Callback)
| CallCycle
| BusActivity (bus : Bus).

(** One call.  A [cycle] that throws does so before it has changed
    anything, so the host finds driver and bus as they were. *)
Definition call (c : Call) (w : Bus * Cpu) : list Event * (Bus * Cpu) :=
  match c with
  | CallReset => ([], (fst w, reset (snd w)))
  | CallSetInterrupt i => ([], (fst w, setInterrupt i (snd w)))
  | CallNmi => ([], (fst w, nmi (snd w)))
  | CallHalt => ([], (fst w, halt (snd w)))
  | CallResume => ([], (fst w, resume (snd w)))
  | CallSetInvalidInstructionCallback cb =>
      ([], (fst w, setInvalidInstructionCallback cb (snd w)))
  | CallCycle =>
      match cycle (fst w) (snd w) with
      | inr (ev, bus', d') => (ev, (bus', d'))
      | inl _ => ([], w)
      end
  | BusActivity bus => ([], (bus, snd w))
  end.

Fixpoint run (h : list Call) (w : Bus * Cpu) : list Event * (Bus * Cpu) :=
  match h with
  | [] => ([], w)
  | c :: h' =>
      let (ev, w') := call c w in
      let (evs, w'') := run h' w' in
      (ev ++ evs, w'')
  end.

(** The states a driver can be in: those a history leads to from a newly
    constructed driver. *)
Inductive reachable : Bus * Cpu -> Prop :=
| reachable_new (bus : Bus) (g : option Rng) : reachable (bus, construct g)
| reachable_call (c : Call) (w : Bus * Cpu) :
    reachable w -> reachable (snd (call c w)).

(** Every result a machine produces is a read or a write. *)
Definition validCycleType (t : CycleType) : Prop := t = read \/ t = write.

Inductive validResult : Result -> Prop :=
| validResult_intro (r : Result) :
    validCycleType (cycleType r) ->
    (forall v st st' r', nextStep r v st = (st', Some r') -> validResult r') ->
    validResult r.

Definition validMachine (m : StateMachine) : Prop :=
  forall st, validResult (StateMachineInterface.reset m st).

Definition validMachines : Prop :=
  validMachine opBoot /\ validMachine opIrq /\ validMachine opNmi /\
  forall op m, compile op = Some m -> validMachine m.

(** A call of [cycle] that performs a fetch: the driver is in phase [fetch]
    and is not held by [halt]. *)
Definition fetches (d : Cpu) : bool :=
  negb (frozen d) && isFetch (executionState d).

(** The value of [p] at the start of the most recent fetch cycle of a
    history, [0] when there was none since the last [reset]. *)
Fixpoint lastFetchPointer (h : list Call) (w : Bus * Cpu) (acc : Z) : Z :=
  match h with
  | [] => acc
  | c :: h' =>
      lastFetchPointer h' (snd (call c w))
        match c with
        | CallReset => 0
        | CallCycle => if fetches (snd w) then p (state (snd w)) else acc
        | _ => acc
        end
  end.

(** A stretch of history inside one instruction: no [reset], and no call of
    [cycle] that fetches. *)
Fixpoint withinInstruction (h : list Call) (w : Bus * Cpu) : bool :=
  match h with
  | [] => true
  | c :: h' =>
      match c with
      | CallReset => false
      | CallCycle => negb (fetches (snd w))
      | _ => true
      end && withinInstruction h' (snd (call c w))
  end.


(** ** Notions the properties are stated with *)

(** The driver as [_fetch] sees it after the carried-over poll. *)
Definition polled (d : Cpu) : Cpu :=
  if _pollInterruptsAfterLastInstruction d then _pollInterrupts d else d.

(** The driver on which [nextStep] is called. *)
Definition honored (r : Result) (d : Cpu) : Cpu :=
  if pollInterrupts r then
    set_pollInterruptsAfterLastInstruction false
      (set_lastResult (Some (set_pollInterrupts false r)) (_pollInterrupts d))
  else d.

(** The driver is in phase [fetch] exactly when it holds no result. *)
Definition coherent (d : Cpu) : Prop :=
  isFetch (executionState d) =
    match _lastResult d with None => true | Some _ => false end.

(** Whatever result the driver holds came from a valid machine. *)
Definition resultsValid (d : Cpu) : Prop :=
  forall r, _lastResult d = Some r -> validResult r.

(** The result a call of [cycle] services: none when the call returns at
    once, fetches or throws. *)
Definition serviced (d : Cpu) : option Result :=
  if frozen d then None
  else if isFetch (executionState d) then None
  else
    match _lastResult d with
    | Some r =>
        match cycleType r with
        | unknown _ => None
        | _ => Some r
        end
    | None => None
    end.

Definition flaggedBy (c : Call) (d : Cpu) : nat :=
  match c with
  | CallCycle =>
      match serviced d with
      | Some r => if pollInterrupts r then 1%nat else 0%nat
      | None => 0%nat
      end
  | _ => 0%nat
  end.

(** How many serviced results of a history had [pollInterrupts] set. *)
Fixpoint flagged (h : list Call) (w : Bus * Cpu) : nat :=
  match h with
  | [] => 0%nat
  | c :: h' => (flaggedBy c (snd w) + flagged h' (snd (call c w)))%nat
  end.

(** The fetch that began the instruction took its machine from the opcode
    table and not from an interrupt latch. *)
Definition tableDispatch (d : Cpu) : bool :=
  negb (CpuInterface.nmi (state (polled d))) && negb (irq (state (polled d))).

(** No interrupt is requested or latched. *)
Definition quiet (d : Cpu) : Prop :=
  _nmiPending d = false /\ CpuInterface.nmi (state d) = false /\
  _interruptPending d = false /\ irq (state d) = false.

(** The next [n] calls of [cycle] each find an opcode with an empty table
    slot at [p]. *)
Fixpoint readsInvalid (n : nat) (w : Bus * Cpu) : Prop :=
  match n with
  | O => True
  | S n' =>
      _operations (fst (bus_read (fst w) (p (state (snd w))))) = None /\
      readsInvalid n' (snd (call CallCycle w))
  end.

Definition isInvalidInstruction (e : Event) : bool :=
  match e with InvalidInstruction => true | _ => false end.

(** How often the invalid-instruction callback was called. *)
Definition callbackCalls (evs : list Event) : nat :=
  length (filter isInvalidInstruction evs).

(** The bus operation a result asks for. *)
Definition busOpOf (r : Result) : Event :=
  match cycleType r with
  | read => BusRead (address r)
  | _ => BusWrite (address r) (value r)
  end.

(** A fetch on [d] reading [opcode] ends in the callback: no latch takes the
    dispatch, the table slot is empty and a callback is installed. *)
Definition reportsInvalid (d : Cpu) (opcode : Z) : bool :=
  tableDispatch d
  && match _operations opcode with None => true | Some _ => false end
  && match _invalidInstructionCallback d with Some _ => true | None => false end.

Definition isCallCycle (c : Call) : bool :=
  match c with CallCycle => true | _ => false end.

(** How often a history calls [cycle]. *)
Definition cycleCalls (h : list Call) : nat := length (filter isCallCycle h).

(** The bus after the accesses of a trace, in their order. *)
Fixpoint replay (evs : list Event) (bus : Bus) : Bus :=
  match evs with
  | [] => bus
  | BusRead addr :: evs' => replay evs' (snd (bus_read bus addr))
  | BusWrite addr v :: evs' => replay evs' (bus_write bus addr v)
  | _ :: evs' => replay evs' bus
  end.

Definition isBusActivity (c : Call) : bool :=
  match c with BusActivity _ => true | _ => false end.

(** ** Properties of the driver *)

Lemma flagI_set_irq (v : bool) (st : State) : flagI (set_irq v st) = flagI st.
Proof. reflexivity. Qed.

Lemma land_bit2 (f : Z) : Z.land f 4 = if Z.testbit f 2 then 4 else 0.
Proof.
  apply Z.bits_inj'; intros k Hk.
  rewrite Z.land_spec.
  change 4 with (2 ^ 2).
  destruct (Z.eq_dec k 2) as [->|Hne].
  - rewrite Z.pow2_bits_true by lia. rewrite andb_true_r.
    destruct (Z.testbit f 2); [ rewrite Z.pow2_bits_true by lia | rewrite Z.bits_0 ];
      reflexivity.
  - rewrite Z.pow2_bits_false by lia. rewrite andb_false_r.
    destruct (Z.testbit f 2); [ rewrite Z.pow2_bits_false by lia | rewrite Z.bits_0 ];
      reflexivity.
Qed.

Lemma flagI_testbit (st : State) : flagI st = Z.testbit (flags st) 2.
Proof.
  unfold flagI, Flags.i. rewrite land_bit2.
  destruct (Z.testbit (flags st) 2); reflexivity.
Qed.

(** C4: the poll step clears [state.irq]; with [_nmiPending] set it sets
    [state.nmi] and clears [_nmiPending], whatever the I flag; otherwise it
    sets [state.irq] exactly when the IRQ line is asserted, no NMI is in
    flight and the I flag (bit 2 of the flag byte) is clear.  So the line has
    no effect while I is set, and a lowered line leaves the latch clear. *)
Theorem pollInterrupts_latches (d : Cpu) :
  (_nmiPending d = true ->
     _pollInterrupts d =
       set_nmiPending false
         (set_state (set_nmi true (set_irq false (state d))) d)) /\
  (_nmiPending d = false ->
     _pollInterrupts d =
       set_state
         (set_irq (_interruptPending d
                   && negb (CpuInterface.nmi (state d))
                   && negb (Z.testbit (flags (state d)) 2))
            (state d)) d) /\
  (Z.testbit (flags (state d)) 2 = true ->
     irq (state (_pollInterrupts d)) = false) /\
  (_interruptPending d = false ->
     irq (state (_pollInterrupts d)) = false).
Proof.
  rewrite <- flagI_testbit.
  unfold _pollInterrupts.
  cbn [_nmiPending _interruptPending state set_state].
  rewrite flagI_set_irq.
  destruct d as [es st cb lr ip np h pa lip g]; cbn.
  destruct np, ip, (CpuInterface.nmi st) eqn:En, (flagI st) eqn:Ef; cbn;
    repeat split; intros; try discriminate; try reflexivity.
Qed.


(** C1 (amended): [reset] on a driver without generator gives
    [a = x = y = 0], [s = 0xFD] and the flag byte [0x34], that is exactly
    I, E and B, with the [irq] and [nmi] latches, both request lines and the
    halt flag cleared. *)
Theorem reset_without_rng (d : Cpu) :
  _rng d = None ->
  let d' := reset d in
  a (state d') = 0 /\ x (state d') = 0 /\ y (state d') = 0 /\
  s (state d') = 0xfd /\
  flags (state d') = 0x34 /\
  flags (state d') = Z.lor Flags.i (Z.lor Flags.e Flags.b) /\
  irq (state d') = false /\ CpuInterface.nmi (state d') = false /\
  _interruptPending d' = false /\ _nmiPending d' = false /\
  _halt d' = false.
Proof.
  intros Hrng. unfold reset. rewrite Hrng. cbn.
  repeat split; reflexivity.
Qed.

(** *** One fetch cycle *)

Lemma pollInterrupts_frame (d : Cpu) :
  executionState (_pollInterrupts d) = executionState d /\
  _invalidInstructionCallback (_pollInterrupts d) = _invalidInstructionCallback d /\
  _lastResult (_pollInterrupts d) = _lastResult d /\
  _interruptPending (_pollInterrupts d) = _interruptPending d /\
  _halt (_pollInterrupts d) = _halt d /\
  _pollInterruptsAfterLastInstruction (_pollInterrupts d) =
    _pollInterruptsAfterLastInstruction d /\
  _lastInstructionPointer (_pollInterrupts d) = _lastInstructionPointer d /\
  p (state (_pollInterrupts d)) = p (state d) /\
  flags (state (_pollInterrupts d)) = flags (state d).
Proof.
  unfold _pollInterrupts.
  destruct d as [es st cb lr ip np h pa lip g]; cbn.
  destruct np; cbn; [ repeat split | ].
  destruct (ip && negb (CpuInterface.nmi st) && negb (flagI (set_irq false st)));
    cbn; repeat split.
Qed.

Lemma polled_p (d : Cpu) : p (state (polled d)) = p (state d).
Proof.
  unfold polled. destruct (_pollInterruptsAfterLastInstruction d); [ | reflexivity ].
  apply pollInterrupts_frame.
Qed.

Lemma land_ffff (v : Z) : Z.land v 0xffff = v mod 2 ^ 16.
Proof. change 0xffff with (Z.ones 16). apply Z.land_ones. lia. Qed.

Lemma polled_fields (d : Cpu) :
  executionState (polled d) = executionState d /\
  _invalidInstructionCallback (polled d) = _invalidInstructionCallback d /\
  _lastResult (polled d) = _lastResult d /\
  _halt (polled d) = _halt d.
Proof.
  unfold polled. destruct (_pollInterruptsAfterLastInstruction d);
    [ | repeat split ].
  pose proof (pollInterrupts_frame d) as F. repeat split; apply F.
Qed.

(** [_fetch], case by case. *)
Lemma fetch_spec (bus : Bus) (d : Cpu) :
  exists evs d',
    _fetch bus d = (evs, snd (bus_read bus (p (state d))), d') /\
    busOps evs = [BusRead (p (state d))] /\
    polls evs = (if _pollInterruptsAfterLastInstruction d then 1 else 0)%nat /\
    _lastInstructionPointer d' = p (state d) /\
    _halt d' = _halt d /\
    (CpuInterface.nmi (state (polled d)) = true ->
       state d' = state (polled d) /\
       executionState d' = execute /\
       _lastResult d' =
         Some (StateMachineInterface.reset opNmi (state (polled d))) /\
       _pollInterruptsAfterLastInstruction d' = false) /\
    (CpuInterface.nmi (state (polled d)) = false ->
     irq (state (polled d)) = true ->
       state d' = state (polled d) /\
       executionState d' = execute /\
       _lastResult d' =
         Some (StateMachineInterface.reset opIrq (state (polled d))) /\
       _pollInterruptsAfterLastInstruction d' = false) /\
    (CpuInterface.nmi (state (polled d)) = false ->
     irq (state (polled d)) = false ->
       state d' =
         set_p (Z.land (p (state d) + 1) 0xffff) (state (polled d)) /\
       _pollInterruptsAfterLastInstruction d' = true /\
       match _operations (fst (bus_read bus (p (state d)))) with
       | Some m =>
           executionState d' = execute /\
           _lastResult d' = Some (StateMachineInterface.reset m (state d'))
       | None =>
           executionState d' = executionState d /\
           _lastResult d' = _lastResult d
       end).
Proof.
  pose proof (polled_p d) as Hp.
  pose proof (polled_fields d) as (Hes & Hcbk & Hlr & Hh).
  unfold _fetch.
  assert (Hev : (if _pollInterruptsAfterLastInstruction d
                 then ([Poll], _pollInterrupts d) else ([], d)) =
                (if _pollInterruptsAfterLastInstruction d then [Poll] else [],
                 polled d)).
  { unfold polled. destruct (_pollInterruptsAfterLastInstruction d); reflexivity. }
  rewrite Hev. clear Hev.
  cbn [state set_lastInstructionPointer].
  rewrite Hp.
  destruct (bus_read bus (p (state d))) as [opcode bus'] eqn:Hrd.
  cbn [fst snd].
  destruct (CpuInterface.nmi (state (polled d))) eqn:Hnmi;
    [ | destruct (irq (state (polled d))) eqn:Hirq;
        [ | destruct (_operations opcode) as [m|] eqn:Hop;
            [ | cbn [_invalidInstructionCallback set_state
                       set_lastInstructionPointer
                       set_pollInterruptsAfterLastInstruction];
                destruct (_invalidInstructionCallback (polled d)) eqn:Hcb ] ] ];
    (eexists; eexists; split; [ reflexivity | ]);
    (split; [ destruct (_pollInterruptsAfterLastInstruction d); reflexivity | ]);
    (split; [ destruct (_pollInterruptsAfterLastInstruction d); reflexivity | ]);
    (split; [ reflexivity | ]);
    (split; [ exact Hh | ]);
    repeat split; intros; try discriminate; try reflexivity;
    try exact Hes; try exact Hlr.
Qed.

(** C3 (amended): a cycle in phase [fetch] that is not held by [halt] reads
    the opcode at [p]; with the [nmi] latch set it starts NMI entry and
    leaves [p]; else with the [irq] latch set it starts IRQ entry and leaves
    [p], whatever the I flag; otherwise [p] becomes [(p + 1) mod 2^16] and
    the machine in the table slot of the opcode is started. *)
Theorem fetch_dispatch (bus : Bus) (d : Cpu) :
  executionState d = fetch ->
  frozen d = false ->
  exists evs d',
    cycle bus d = inr (evs, snd (bus_read bus (p (state d))), d') /\
    busOps evs = [BusRead (p (state d))] /\
    (CpuInterface.nmi (state (polled d)) = true ->
       state d' = state (polled d) /\
       executionState d' = execute /\
       _lastResult d' =
         Some (StateMachineInterface.reset opNmi (state (polled d)))) /\
    (CpuInterface.nmi (state (polled d)) = false ->
     irq (state (polled d)) = true ->
       state d' = state (polled d) /\
       executionState d' = execute /\
       _lastResult d' =
         Some (StateMachineInterface.reset opIrq (state (polled d)))) /\
    (CpuInterface.nmi (state (polled d)) = false ->
     irq (state (polled d)) = false ->
       state d' =
         set_p (Z.land (p (state d) + 1) 0xffff) (state (polled d)) /\
       p (state d') = (p (state d) + 1) mod 2 ^ 16 /\
       match _operations (fst (bus_read bus (p (state d)))) with
       | Some m =>
           executionState d' = execute /\
           _lastResult d' = Some (StateMachineInterface.reset m (state d'))
       | None =>
           executionState d' = fetch /\ _lastResult d' = _lastResult d
       end).
Proof.
  intros Hph Hfr.
  destruct (fetch_spec bus d)
    as (evs & d' & Hf & Hbus & _ & _ & _ & Hnmi & Hirq & Htab).
  exists evs, d'.
  split. { unfold cycle. rewrite Hfr, Hph. cbn [isFetch]. rewrite Hf. reflexivity. }
  split; [ exact Hbus | ].
  split. { intros H. destruct (Hnmi H) as (A & B & C & _). auto. }
  split. { intros H H'. destruct (Hirq H H') as (A & B & C & _). auto. }
  intros H H'. destruct (Htab H H') as (A & _ & C).
  split; [ exact A | ].
  split. { rewrite A. cbn [p set_p]. apply land_ffff. }
  rewrite Hph in C. exact C.
Qed.

(** *** One cycle in phase [boot] or [execute] *)

Lemma advance_fields (r : Result) (v : Z) (d : Cpu) :
  state (advance r v d) = fst (nextStep r v (state d)) /\
  _lastResult (advance r v d) = snd (nextStep r v (state d)) /\
  executionState (advance r v d) =
    match snd (nextStep r v (state d)) with
    | None => fetch
    | Some _ => executionState d
    end /\
  _halt (advance r v d) = _halt d /\
  _pollInterruptsAfterLastInstruction (advance r v d) =
    _pollInterruptsAfterLastInstruction d /\
  _lastInstructionPointer (advance r v d) = _lastInstructionPointer d /\
  _invalidInstructionCallback (advance r v d) = _invalidInstructionCallback d /\
  _interruptPending (advance r v d) = _interruptPending d /\
  _nmiPending (advance r v d) = _nmiPending d.
Proof.
  unfold advance.
  destruct (nextStep r v (state d)) as [st [r'|]]; cbn; repeat split.
Qed.

Lemma finish_eq (r : Result) (v : Z) (d : Cpu) :
  finish r v d =
    (if pollInterrupts r then [Poll] else [], advance r v (honored r d)).
Proof.
  unfold finish, honorPoll, honored.
  destruct (pollInterrupts r); reflexivity.
Qed.

Lemma honored_fields (r : Result) (d : Cpu) :
  executionState (honored r d) = executionState d /\
  _halt (honored r d) = _halt d /\
  _lastInstructionPointer (honored r d) = _lastInstructionPointer d /\
  _pollInterruptsAfterLastInstruction (honored r d) =
    _pollInterruptsAfterLastInstruction d && negb (pollInterrupts r) /\
  state (honored r d) =
    state (if pollInterrupts r then _pollInterrupts d else d).
Proof.
  unfold honored. destruct (pollInterrupts r); cbn.
  - pose proof (pollInterrupts_frame d) as F.
    repeat split; try apply F. symmetry. apply andb_false_r.
  - rewrite andb_true_r. repeat split.
Qed.

Lemma cycle_frozen (bus : Bus) (d : Cpu) :
  frozen d = true -> cycle bus d = inr ([], bus, d).
Proof. intros H. unfold cycle. rewrite H. reflexivity. Qed.

Lemma cycle_read (bus : Bus) (d : Cpu) (r : Result) :
  frozen d = false -> isFetch (executionState d) = false ->
  _lastResult d = Some r -> cycleType r = read ->
  cycle bus d =
    inr (BusRead (address r) :: (if pollInterrupts r then [Poll] else []),
         snd (bus_read bus (address r)),
         advance r (fst (bus_read bus (address r))) (honored r d)).
Proof.
  intros Hfr Hph Hlr Hct. unfold cycle. rewrite Hfr, Hph, Hlr, Hct.
  destruct (bus_read bus (address r)) as [v bus'].
  rewrite finish_eq. reflexivity.
Qed.

Lemma cycle_write (bus : Bus) (d : Cpu) (r : Result) :
  frozen d = false -> isFetch (executionState d) = false ->
  _lastResult d = Some r -> cycleType r = write ->
  cycle bus d =
    inr (BusWrite (address r) (value r) :: (if pollInterrupts r then [Poll] else []),
         bus_write bus (address r) (value r),
         advance r (value r) (honored r d)).
Proof.
  intros Hfr Hph Hlr Hct. unfold cycle. rewrite Hfr, Hph, Hlr, Hct.
  rewrite finish_eq. reflexivity.
Qed.

Lemma cycle_fetch (bus : Bus) (d : Cpu) :
  frozen d = false -> isFetch (executionState d) = true ->
  cycle bus d = inr (_fetch bus d).
Proof. intros Hfr Hph. unfold cycle. rewrite Hfr, Hph. reflexivity. Qed.

Lemma isFetch_true (e : ExecutionState) : isFetch e = true <-> e = fetch.
Proof. destruct e; cbn; split; intros H; congruence. Qed.

(** *** What holds in every reachable state *)

Lemma fetch_coherent (bus : Bus) (d : Cpu) :
  coherent d -> isFetch (executionState d) = true ->
  coherent (snd (_fetch bus d)).
Proof.
  intros Hc Hph. apply isFetch_true in Hph.
  unfold coherent in Hc. rewrite Hph in Hc. cbn in Hc.
  unfold _fetch.
  destruct (_pollInterruptsAfterLastInstruction d).
  - pose proof (pollInterrupts_frame d) as (Fes & _ & Flr & _).
    destruct (bus_read bus _) as [opcode bus'].
    destruct (CpuInterface.nmi _); [ reflexivity | ].
    destruct (irq _); [ reflexivity | ].
    destruct (_operations opcode); [ reflexivity | ].
    cbn [_invalidInstructionCallback set_pollInterruptsAfterLastInstruction
           set_state set_lastInstructionPointer].
    destruct (_invalidInstructionCallback (_pollInterrupts d));
      unfold coherent; cbn; rewrite Fes, Flr, Hph, <- Hc; reflexivity.
  - destruct (bus_read bus _) as [opcode bus'].
    destruct (CpuInterface.nmi _); [ reflexivity | ].
    destruct (irq _); [ reflexivity | ].
    destruct (_operations opcode); [ reflexivity | ].
    cbn [_invalidInstructionCallback set_pollInterruptsAfterLastInstruction
           set_state set_lastInstructionPointer].
    destruct (_invalidInstructionCallback d);
      unfold coherent; cbn; rewrite Hph, <- Hc; reflexivity.
Qed.

Lemma advance_coherent (r : Result) (v : Z) (d : Cpu) :
  isFetch (executionState d) = false -> coherent (advance r v d).
Proof.
  intros Hph. unfold coherent.
  pose proof (advance_fields r v d) as (_ & Flr & Fes & _).
  rewrite Flr, Fes.
  destruct (snd (nextStep r v (state d))); [ exact Hph | reflexivity ].
Qed.

Lemma cycle_coherent (bus : Bus) (d : Cpu) evs bus' d' :
  coherent d -> cycle bus d = inr (evs, bus', d') -> coherent d'.
Proof.
  intros Hc Hcy.
  destruct (frozen d) eqn:Hfr.
  { rewrite cycle_frozen in Hcy by assumption. injection Hcy as _ _ <-. exact Hc. }
  destruct (isFetch (executionState d)) eqn:Hph.
  { rewrite cycle_fetch in Hcy by assumption.
    pose proof (fetch_coherent bus d Hc Hph) as H.
    injection Hcy as Hcy. rewrite Hcy in H. exact H. }
  destruct (_lastResult d) as [r|] eqn:Hlr.
  2:{ unfold cycle in Hcy. rewrite Hfr, Hph, Hlr in Hcy. discriminate. }
  assert (Hh : isFetch (executionState (honored r d)) = false).
  { pose proof (honored_fields r d) as (F & _). rewrite F. exact Hph. }
  destruct (cycleType r) eqn:Hct.
  - rewrite (cycle_read bus d r) in Hcy by assumption.
    injection Hcy as _ _ <-. apply advance_coherent, Hh.
  - rewrite (cycle_write bus d r) in Hcy by assumption.
    injection Hcy as _ _ <-. apply advance_coherent, Hh.
  - unfold cycle in Hcy. rewrite Hfr, Hph, Hlr, Hct in Hcy. discriminate.
Qed.

Lemma reset_fields (d : Cpu) :
  executionState (reset d) = boot /\
  _lastResult (reset d) =
    Some (StateMachineInterface.reset opBoot (state (reset d))) /\
  _lastInstructionPointer (reset d) = 0 /\
  _halt (reset d) = false /\
  _pollInterruptsAfterLastInstruction (reset d) =
    _pollInterruptsAfterLastInstruction d /\
  _invalidInstructionCallback (reset d) = _invalidInstructionCallback d.
Proof.
  unfold reset.
  destruct (rngInt 0xff (_rng d)) as [va g1].
  destruct (rngInt 0xff g1) as [vx g2].
  destruct (rngInt 0xff g2) as [vy g3].
  destruct (rngInt 0xffff g3) as [vp g4].
  destruct (rngInt 0xff g4) as [vf g5].
  cbn. repeat split.
Qed.

Lemma reset_coherent (d : Cpu) : coherent (reset d).
Proof.
  unfold coherent.
  pose proof (reset_fields d) as (Fes & Flr & _).
  rewrite Fes, Flr. reflexivity.
Qed.

Lemma call_coherent (c : Call) (w : Bus * Cpu) :
  coherent (snd w) -> coherent (snd (snd (call c w))).
Proof.
  intros Hc. destruct w as [bus d]. destruct c; cbn; try exact Hc.
  - apply reset_coherent.
  - destruct (cycle bus d) as [e|[[evs bus'] d']] eqn:Hcy; cbn; [ exact Hc | ].
    eapply cycle_coherent; eassumption.
Qed.

Lemma reachable_coherent (w : Bus * Cpu) : reachable w -> coherent (snd w).
Proof.
  induction 1 as [bus g|c w Hw IH].
  - apply reset_coherent.
  - apply call_coherent, IH.
Qed.

Lemma operations_compile (op : Z) (m : StateMachine) :
  _operations op = Some m -> compile op = Some m.
Proof.
  unfold _operations.
  destruct ((0 <=? op) && (op <? 256)); [ auto | discriminate ].
Qed.

Lemma fetch_valid (bus : Bus) (d : Cpu) :
  validMachines -> resultsValid d -> resultsValid (snd (_fetch bus d)).
Proof.
  intros (Vb & Vi & Vn & Vc) Hv r Hr.
  destruct (fetch_spec bus d)
    as (evs & d' & Hf & _ & _ & _ & _ & Hnmi & Hirq & Htab).
  rewrite Hf in Hr. cbn [snd] in Hr.
  destruct (CpuInterface.nmi (state (polled d))) eqn:En.
  { destruct (Hnmi eq_refl) as (_ & _ & Hlr & _).
    rewrite Hlr in Hr. injection Hr as <-. apply Vn. }
  destruct (irq (state (polled d))) eqn:Ei.
  { destruct (Hirq eq_refl eq_refl) as (_ & _ & Hlr & _).
    rewrite Hlr in Hr. injection Hr as <-. apply Vi. }
  destruct (Htab eq_refl eq_refl) as (_ & _ & Hop).
  destruct (_operations (fst (bus_read bus (p (state d))))) as [m|] eqn:Em.
  - destruct Hop as (_ & Hlr). rewrite Hlr in Hr. injection Hr as <-.
    eapply Vc. apply operations_compile, Em.
  - destruct Hop as (_ & Hlr). rewrite Hlr in Hr. apply Hv, Hr.
Qed.

Lemma advance_valid (r : Result) (v : Z) (d : Cpu) :
  validResult r -> resultsValid (advance r v d).
Proof.
  intros Hr r' Hr'.
  pose proof (advance_fields r v d) as (_ & Flr & _).
  rewrite Flr in Hr'.
  inversion Hr as [r0 _ Hnext]; subst r0.
  apply (Hnext v (state d) (fst (nextStep r v (state d)))).
  rewrite <- Hr'. apply surjective_pairing.
Qed.

Lemma cycle_valid (bus : Bus) (d : Cpu) evs bus' d' :
  validMachines -> resultsValid d ->
  cycle bus d = inr (evs, bus', d') -> resultsValid d'.
Proof.
  intros Vm Hv Hcy.
  destruct (frozen d) eqn:Hfr.
  { rewrite cycle_frozen in Hcy by assumption. injection Hcy as _ _ <-. exact Hv. }
  destruct (isFetch (executionState d)) eqn:Hph.
  { rewrite cycle_fetch in Hcy by assumption.
    pose proof (fetch_valid bus d Vm Hv) as H.
    injection Hcy as Hcy. rewrite Hcy in H. exact H. }
  destruct (_lastResult d) as [r|] eqn:Hlr.
  2:{ unfold cycle in Hcy. rewrite Hfr, Hph, Hlr in Hcy. discriminate. }
  destruct (cycleType r) eqn:Hct.
  - rewrite (cycle_read bus d r) in Hcy by assumption.
    injection Hcy as _ _ <-. apply advance_valid, Hv, Hlr.
  - rewrite (cycle_write bus d r) in Hcy by assumption.
    injection Hcy as _ _ <-. apply advance_valid, Hv, Hlr.
  - unfold cycle in Hcy. rewrite Hfr, Hph, Hlr, Hct in Hcy. discriminate.
Qed.

Lemma call_valid (c : Call) (w : Bus * Cpu) :
  validMachines -> resultsValid (snd w) -> resultsValid (snd (snd (call c w))).
Proof.
  intros Vm Hv. destruct w as [bus d]. destruct c; cbn; try exact Hv.
  - intros r Hr. pose proof (reset_fields d) as (_ & Flr & _).
    rewrite Flr in Hr. injection Hr as <-. apply Vm.
  - destruct (cycle bus d) as [e|[[evs bus'] d']] eqn:Hcy; cbn; [ exact Hv | ].
    eapply cycle_valid; eassumption.
Qed.

Lemma reachable_valid (w : Bus * Cpu) :
  validMachines -> reachable w -> resultsValid (snd w).
Proof.
  intros Vm. induction 1 as [bus g|c w Hw IH].
  - intros r Hr. cbn in Hr. unfold construct in Hr.
    pose proof (reset_fields (initial g)) as (_ & Flr & _).
    rewrite Flr in Hr. injection Hr as <-. apply Vm.
  - apply call_valid; assumption.
Qed.

(** A coherent state in phase [fetch] holds no result, so it is held by
    [halt] exactly when halted. *)
Lemma coherent_fetch (d : Cpu) :
  coherent d -> isFetch (executionState d) = true -> _lastResult d = None.
Proof.
  unfold coherent. intros Hc Hph. rewrite Hph in Hc.
  destruct (_lastResult d); [ discriminate | reflexivity ].
Qed.

Lemma coherent_execute (d : Cpu) :
  coherent d -> isFetch (executionState d) = false ->
  exists r, _lastResult d = Some r.
Proof.
  unfold coherent. intros Hc Hph. rewrite Hph in Hc.
  destruct (_lastResult d) as [r|]; [ exists r; reflexivity | discriminate ].
Qed.

Lemma cycle_defined (bus : Bus) (d : Cpu) :
  coherent d -> resultsValid d -> exists out, cycle bus d = inr out.
Proof.
  intros Hc Hv.
  destruct (frozen d) eqn:Hfr.
  { eexists. apply cycle_frozen, Hfr. }
  destruct (isFetch (executionState d)) eqn:Hph.
  { eexists. apply cycle_fetch; assumption. }
  destruct (coherent_execute d Hc Hph) as [r Hlr].
  pose proof (Hv r Hlr) as Hr. inversion Hr as [r0 [Hct|Hct] _]; subst r0.
  - eexists. apply (cycle_read bus d r); assumption.
  - eexists. apply (cycle_write bus d r); assumption.
Qed.

(** C9: when every result of every machine is a read or a write, [cycle]
    returns normally in every state a history can reach: neither the
    ['invalid cycle type'] branch nor a missing result is met. *)
Theorem cycle_never_throws (w : Bus * Cpu) :
  validMachines -> reachable w ->
  exists evs bus' d', cycle (fst w) (snd w) = inr (evs, bus', d').
Proof.
  intros Vm Hw.
  destruct (cycle_defined (fst w) (snd w)) as [[[evs bus'] d'] H].
  - apply reachable_coherent, Hw.
  - apply reachable_valid; assumption.
  - exists evs, bus', d'. exact H.
Qed.

Lemma busOps_cons_polls (e : Event) (b : bool) :
  isBusOp e = true ->
  busOps (e :: (if b then [Poll] else [])) = [e].
Proof.
  intros He. unfold busOps. cbn [filter]. rewrite He.
  destruct b; reflexivity.
Qed.

(** C6: in a reachable state with [halt] set, [cycle] returns at once,
    with no event and nothing changed, when it holds a read or no result;
    when it holds a write, the write goes to the bus; in no case does the
    bus see a read. *)
Theorem halted_cycle (w : Bus * Cpu) :
  reachable w ->
  _halt (snd w) = true ->
  ((_lastResult (snd w) = None \/
    exists r, _lastResult (snd w) = Some r /\ cycleType r = read) ->
   cycle (fst w) (snd w) = inr ([], fst w, snd w)) /\
  (forall r, _lastResult (snd w) = Some r -> cycleType r = write ->
   exists evs d',
     cycle (fst w) (snd w) =
       inr (evs, bus_write (fst w) (address r) (value r), d') /\
     busOps evs = [BusWrite (address r) (value r)]) /\
  (forall evs bus' d',
     cycle (fst w) (snd w) = inr (evs, bus', d') -> busReads evs = []).
Proof.
  intros Hw Hh. destruct w as [bus d]. cbn [fst snd] in *.
  pose proof (reachable_coherent _ Hw) as Hc. cbn [snd] in Hc.
  assert (Hwr : forall r, _lastResult d = Some r -> cycleType r = write ->
            cycle bus d =
              inr (BusWrite (address r) (value r)
                     :: (if pollInterrupts r then [Poll] else []),
                   bus_write bus (address r) (value r),
                   advance r (value r) (honored r d))).
  { intros r Hlr Hct. apply cycle_write; try assumption.
    - unfold frozen. rewrite Hh, Hlr, Hct. reflexivity.
    - unfold coherent in Hc. rewrite Hlr in Hc. exact Hc. }
  split; [ | split ].
  - intros H. apply cycle_frozen. unfold frozen. rewrite Hh.
    destruct H as [->|(r & -> & ->)]; reflexivity.
  - intros r Hlr Hct. eexists. eexists. split; [ apply Hwr; assumption | ].
    apply busOps_cons_polls. reflexivity.
  - intros evs bus' d' Hcy.
    destruct (_lastResult d) as [r|] eqn:Hlr.
    + destruct (cycleType r) eqn:Hct.
      * rewrite cycle_frozen in Hcy
          by (unfold frozen; rewrite Hh, Hlr, Hct; reflexivity).
        injection Hcy as <- _ _. reflexivity.
      * rewrite (Hwr r eq_refl Hct) in Hcy. injection Hcy as <- _ _.
        destruct (pollInterrupts r); reflexivity.
      * unfold coherent in Hc. rewrite Hlr in Hc.
        unfold cycle in Hcy. unfold frozen in Hcy.
        rewrite Hh, Hlr, Hct, Hc in Hcy. discriminate.
    + rewrite cycle_frozen in Hcy by (unfold frozen; rewrite Hh, Hlr; reflexivity).
      injection Hcy as <- _ _. reflexivity.
Qed.

Lemma frozen_halt (d : Cpu) : _halt d = false -> frozen d = false.
Proof. intros H. unfold frozen. rewrite H. reflexivity. Qed.

(** C7: in every reachable state [cycle] uses the bus at most once, and
    exactly once when the driver is not halted.  Held by [halt] it leaves
    the bus as it is; in phase [fetch] the bus is the one left by the read
    at [p]; otherwise it is the one left by the single read or write of the
    result the driver holds. *)
Theorem one_bus_operation (w : Bus * Cpu) :
  validMachines -> reachable w ->
  (frozen (snd w) = true ->
     cycle (fst w) (snd w) = inr ([], fst w, snd w)) /\
  (_halt (snd w) = false -> frozen (snd w) = false) /\
  (frozen (snd w) = false ->
     (executionState (snd w) = fetch ->
        exists evs d',
          cycle (fst w) (snd w) =
            inr (evs, snd (bus_read (fst w) (p (state (snd w)))), d') /\
          busOps evs = [BusRead (p (state (snd w)))]) /\
     (executionState (snd w) <> fetch ->
        exists r evs d',
          _lastResult (snd w) = Some r /\
          (cycleType r = read /\
           cycle (fst w) (snd w) =
             inr (evs, snd (bus_read (fst w) (address r)), d') /\
           busOps evs = [BusRead (address r)] \/
           cycleType r = write /\
           cycle (fst w) (snd w) =
             inr (evs, bus_write (fst w) (address r) (value r), d') /\
           busOps evs = [BusWrite (address r) (value r)]))).
Proof.
  intros Vm Hw. destruct w as [bus d]. cbn [fst snd].
  pose proof (reachable_coherent _ Hw) as Hc.
  pose proof (reachable_valid _ Vm Hw) as Hv. cbn [snd] in Hc, Hv.
  split; [ apply cycle_frozen | ].
  split; [ apply frozen_halt | ].
  intros Hfr. split.
  - intros Hph.
    destruct (fetch_spec bus d) as (evs & d' & Hf & Hbus & _).
    exists evs, d'. split; [ | exact Hbus ].
    rewrite cycle_fetch; [ rewrite Hf; reflexivity | exact Hfr | ].
    rewrite Hph. reflexivity.
  - intros Hne.
    assert (Hph : isFetch (executionState d) = false).
    { destruct (executionState d); try reflexivity. contradiction. }
    destruct (coherent_execute d Hc Hph) as [r Hlr].
    pose proof (Hv r Hlr) as Hr. inversion Hr as [r0 [Hct|Hct] _]; subst r0.
    + eexists r, _, _. split; [ exact Hlr | left ].
      split; [ exact Hct | ].
      split; [ apply (cycle_read bus d r); assumption | ].
      apply busOps_cons_polls. reflexivity.
    + eexists r, _, _. split; [ exact Hlr | right ].
      split; [ exact Hct | ].
      split; [ apply (cycle_write bus d r); assumption | ].
      apply busOps_cons_polls. reflexivity.
Qed.

(** C10: a halted driver that holds a write still takes the step: the
    write goes to the bus, [nextStep] runs and its state and result replace
    the old ones, and the phase becomes [fetch] when the machine is done,
    all with [halt] still set.  The driver stands still only from the next
    read or fetch on. *)
Theorem halted_write_advances (w : Bus * Cpu) (r : Result) :
  reachable w ->
  _halt (snd w) = true ->
  _lastResult (snd w) = Some r ->
  cycleType r = write ->
  exists evs d',
    cycle (fst w) (snd w) =
      inr (evs, bus_write (fst w) (address r) (value r), d') /\
    (state d', _lastResult d') =
      nextStep r (value r)
        (state (if pollInterrupts r then _pollInterrupts (snd w) else snd w)) /\
    _halt d' = true /\
    executionState d' =
      match _lastResult d' with
      | None => fetch
      | Some _ => executionState (snd w)
      end /\
    (forall bus',
       _lastResult d' = None \/
       (exists r', _lastResult d' = Some r' /\ cycleType r' = read) ->
       cycle bus' d' = inr ([], bus', d')).
Proof.
  intros Hw Hh Hlr Hct. destruct w as [bus d]. cbn [fst snd] in *.
  pose proof (reachable_coherent _ Hw) as Hc. cbn [snd] in Hc.
  assert (Hph : isFetch (executionState d) = false).
  { unfold coherent in Hc. rewrite Hlr in Hc. exact Hc. }
  assert (Hfr : frozen d = false).
  { unfold frozen. rewrite Hh, Hlr, Hct. reflexivity. }
  pose proof (honored_fields r d) as (Hes & Hhh & _ & _ & Hst).
  pose proof (advance_fields r (value r) (honored r d))
    as (Fst & Flr & Fes & Fh & _).
  eexists. eexists.
  split; [ apply (cycle_write bus d r); assumption | ].
  assert (Hh' : _halt (advance r (value r) (honored r d)) = true)
    by (rewrite Fh, Hhh; exact Hh).
  split; [ | split; [ exact Hh' | split ] ].
  - rewrite Fst, Flr, Hst. symmetry. apply surjective_pairing.
  - rewrite Fes, Flr, Hes. reflexivity.
  - intros bus' H. apply cycle_frozen. unfold frozen. rewrite Hh'.
    destruct H as [->|(r' & -> & ->)]; reflexivity.
Qed.

Lemma cycle_lastInstructionPointer (bus : Bus) (d : Cpu) evs bus' d' :
  cycle bus d = inr (evs, bus', d') ->
  _lastInstructionPointer d' =
    if fetches d then p (state d) else _lastInstructionPointer d.
Proof.
  intros Hcy. unfold fetches.
  destruct (frozen d) eqn:Hfr.
  { rewrite cycle_frozen in Hcy by assumption. injection Hcy as _ _ <-. reflexivity. }
  destruct (isFetch (executionState d)) eqn:Hph; cbn [negb andb].
  { rewrite cycle_fetch in Hcy by assumption.
    destruct (fetch_spec bus d) as (evs0 & d0 & Hf & _ & _ & Hlip & _).
    rewrite Hf in Hcy. injection Hcy as _ _ <-. exact Hlip. }
  destruct (_lastResult d) as [r|] eqn:Hlr.
  2:{ unfold cycle in Hcy. rewrite Hfr, Hph, Hlr in Hcy. discriminate. }
  pose proof (honored_fields r d) as (_ & _ & Hl & _).
  destruct (cycleType r) eqn:Hct.
  - rewrite (cycle_read bus d r) in Hcy by assumption.
    injection Hcy as _ _ <-.
    pose proof (advance_fields r (fst (bus_read bus (address r))) (honored r d))
      as (_ & _ & _ & _ & _ & F & _).
    rewrite F. exact Hl.
  - rewrite (cycle_write bus d r) in Hcy by assumption.
    injection Hcy as _ _ <-.
    pose proof (advance_fields r (value r) (honored r d))
      as (_ & _ & _ & _ & _ & F & _).
    rewrite F. exact Hl.
  - unfold cycle in Hcy. rewrite Hfr, Hph, Hlr, Hct in Hcy. discriminate.
Qed.

Lemma call_lastInstructionPointer (c : Call) (w : Bus * Cpu) :
  getLastInstructionPointer (snd (snd (call c w))) =
    match c with
    | CallReset => 0
    | CallCycle =>
        if fetches (snd w) then p (state (snd w))
        else getLastInstructionPointer (snd w)
    | _ => getLastInstructionPointer (snd w)
    end.
Proof.
  unfold getLastInstructionPointer.
  destruct w as [bus d]. destruct c; cbn [call fst snd]; try reflexivity.
  - apply reset_fields.
  - destruct (cycle bus d) as [e|[[evs bus'] d']] eqn:Hcy; cbn [snd].
    + unfold fetches, cycle in *.
      destruct (frozen d); [ discriminate | ].
      destruct (isFetch (executionState d)); [ discriminate | reflexivity ].
    + eapply cycle_lastInstructionPointer, Hcy.
Qed.

Lemma run_lastInstructionPointer (h : list Call) (w : Bus * Cpu) :
  getLastInstructionPointer (snd (snd (run h w))) =
    lastFetchPointer h w (getLastInstructionPointer (snd w)).
Proof.
  revert w. induction h as [|c h IH]; intros w; [ reflexivity | ].
  cbn [run lastFetchPointer].
  pose proof (call_lastInstructionPointer c w) as Hc.
  destruct (call c w) as [ev w'] eqn:Hcall. cbn [snd] in Hc |- *.
  specialize (IH w').
  destruct (run h w') as [evs w''] eqn:Hrun. cbn [snd] in IH |- *.
  rewrite IH, Hc. destruct c; reflexivity.
Qed.

(** C8: after any history of a newly constructed driver,
    [getLastInstructionPointer] is the value [p] had when the most recent
    fetch cycle began, and [0] when no fetch has taken place since the last
    [reset]. *)
Theorem lastInstructionPointer_history
    (h : list Call) (bus : Bus) (g : option Rng) :
  getLastInstructionPointer (snd (snd (run h (bus, construct g)))) =
    lastFetchPointer h (bus, construct g) 0.
Proof.
  rewrite run_lastInstructionPointer. f_equal.
  unfold getLastInstructionPointer, construct. apply reset_fields.
Qed.

(** *** Polling, from one fetch to the next *)

Lemma polls_app (e1 e2 : list Event) : polls (e1 ++ e2) = (polls e1 + polls e2)%nat.
Proof. unfold polls. rewrite filter_app, length_app. reflexivity. Qed.

Lemma polls_cons_busOp (e : Event) (b : bool) :
  isBusOp e = true ->
  polls (e :: (if b then [Poll] else [])) = (if b then 1 else 0)%nat.
Proof. intros He. destruct e; try discriminate; destruct b; reflexivity. Qed.

Lemma cycle_within (bus : Bus) (d : Cpu) :
  fetches d = false ->
  polls (fst (call CallCycle (bus, d))) = flaggedBy CallCycle d /\
  _pollInterruptsAfterLastInstruction (snd (snd (call CallCycle (bus, d)))) =
    _pollInterruptsAfterLastInstruction d && (flaggedBy CallCycle d =? 0)%nat.
Proof.
  intros Hnf. unfold flaggedBy, serviced, fetches in *. cbn [call fst snd].
  destruct (frozen d) eqn:Hfr.
  { rewrite cycle_frozen by assumption. cbn. rewrite andb_true_r. auto. }
  cbn [negb andb] in Hnf. rewrite Hnf.
  destruct (_lastResult d) as [r|] eqn:Hlr.
  2:{ unfold cycle. rewrite Hfr, Hnf, Hlr. cbn. rewrite andb_true_r. auto. }
  pose proof (honored_fields r d) as (_ & _ & _ & Hpa & _).
  destruct (cycleType r) eqn:Hct.
  - rewrite (cycle_read bus d r) by assumption. cbn [fst snd].
    pose proof (advance_fields r (fst (bus_read bus (address r))) (honored r d))
      as (_ & _ & _ & _ & F & _).
    rewrite F, Hpa, polls_cons_busOp by reflexivity.
    destruct (pollInterrupts r); auto.
  - rewrite (cycle_write bus d r) by assumption. cbn [fst snd].
    pose proof (advance_fields r (value r) (honored r d))
      as (_ & _ & _ & _ & F & _).
    rewrite F, Hpa, polls_cons_busOp by reflexivity.
    destruct (pollInterrupts r); auto.
  - unfold cycle. rewrite Hfr, Hnf, Hlr, Hct. cbn. rewrite andb_true_r. auto.
Qed.

Lemma run_within (h : list Call) (w : Bus * Cpu) :
  withinInstruction h w = true ->
  polls (fst (run h w)) = flagged h w /\
  _pollInterruptsAfterLastInstruction (snd (snd (run h w))) =
    _pollInterruptsAfterLastInstruction (snd w) && (flagged h w =? 0)%nat.
Proof.
  revert w. induction h as [|c h IH]; intros w Hw.
  { cbn. rewrite andb_true_r. auto. }
  cbn [withinInstruction] in Hw. apply andb_prop in Hw as [Hc Hh].
  specialize (IH _ Hh). destruct IH as [IHp IHa].
  assert (Hone :
    polls (fst (call c w)) = flaggedBy c (snd w) /\
    _pollInterruptsAfterLastInstruction (snd (snd (call c w))) =
      _pollInterruptsAfterLastInstruction (snd w) && (flaggedBy c (snd w) =? 0)%nat).
  { destruct w as [bus d].
    destruct c; try discriminate Hc;
      try (cbn; rewrite andb_true_r; split; reflexivity).
    apply cycle_within. apply negb_true_iff, Hc. }
  destruct Hone as [Hp Ha].
  cbn [run flagged].
  destruct (call c w) as [ev w'] eqn:Hcall. cbn [fst snd] in *.
  destruct (run h w') as [evs w''] eqn:Hrun. cbn [fst snd] in *.
  rewrite polls_app, Hp, IHp, IHa, Ha.
  split; [ reflexivity | ].
  destruct (flaggedBy c (snd w)); destruct (flagged h w');
    cbn; rewrite ?andb_true_r, ?andb_false_r; reflexivity.
Qed.

Lemma cycle_fetches (bus : Bus) (d : Cpu) :
  fetches d = true ->
  polls (fst (call CallCycle (bus, d))) =
    (if _pollInterruptsAfterLastInstruction d then 1 else 0)%nat /\
  _pollInterruptsAfterLastInstruction (snd (snd (call CallCycle (bus, d)))) =
    tableDispatch d.
Proof.
  intros Hf. unfold fetches in Hf. apply andb_prop in Hf as [Hfr Hph].
  apply negb_true_iff in Hfr.
  cbn [call fst snd]. rewrite cycle_fetch by assumption.
  destruct (fetch_spec bus d)
    as (evs & d' & Hf & _ & Hpolls & _ & _ & Hnmi & Hirq & Htab).
  rewrite Hf. cbn [fst snd]. split; [ exact Hpolls | ].
  unfold tableDispatch.
  destruct (CpuInterface.nmi (state (polled d))).
  { apply Hnmi. reflexivity. }
  destruct (irq (state (polled d))).
  { apply Hirq; reflexivity. }
  apply Htab; reflexivity.
Qed.

Lemma cycle_honors_poll (bus : Bus) (d : Cpu) (r : Result) :
  serviced d = Some r -> pollInterrupts r = true ->
  exists op v bus',
    isBusOp op = true /\
    honorPoll r d =
      ([Poll], set_pollInterrupts false r,
       set_pollInterruptsAfterLastInstruction false
         (set_lastResult (Some (set_pollInterrupts false r))
            (_pollInterrupts d))) /\
    cycle bus d =
      inr ([op; Poll], bus',
           advance (set_pollInterrupts false r) v
             (set_pollInterruptsAfterLastInstruction false
                (set_lastResult (Some (set_pollInterrupts false r))
                   (_pollInterrupts d)))).
Proof.
  unfold serviced. intros Hs Hp.
  destruct (frozen d) eqn:Hfr; [ discriminate | ].
  destruct (isFetch (executionState d)) eqn:Hph; [ discriminate | ].
  destruct (_lastResult d) as [r0|] eqn:Hlr; [ | discriminate ].
  assert (Hhp : honorPoll r d =
      ([Poll], set_pollInterrupts false r,
       set_pollInterruptsAfterLastInstruction false
         (set_lastResult (Some (set_pollInterrupts false r))
            (_pollInterrupts d))))
    by (unfold honorPoll; rewrite Hp; reflexivity).
  destruct (cycleType r0) eqn:Hct; [ | | discriminate ];
    injection Hs as ->; unfold cycle; rewrite Hfr, Hph, Hlr, Hct.
  - destruct (bus_read bus (address r)) as [v bus'].
    exists (BusRead (address r)), v, bus'.
    unfold finish. rewrite Hhp. auto.
  - exists (BusWrite (address r) (value r)), (value r),
      (bus_write bus (address r) (value r)).
    unfold finish. rewrite Hhp. auto.
Qed.

(** C5 (amended): between the fetch that begins an instruction and the
    next fetch, with no [reset] in between, the poll step runs once for
    every serviced result that has [pollInterrupts] set, after the bus
    operation and before [nextStep], which is called on the result with the
    flag cleared.  The next fetch polls exactly when the instruction came
    from the opcode table and no result had the flag set.  There is at most
    one poll for the boundary only when at most one result had the flag
    set. *)
Theorem poll_once_per_boundary (w0 : Bus * Cpu) (h : list Call) :
  fetches (snd w0) = true ->
  withinInstruction h (snd (call CallCycle w0)) = true ->
  fetches (snd (snd (run h (snd (call CallCycle w0))))) = true ->
  let w := snd (call CallCycle w0) in
  let during := fst (run h w) in
  let after := fst (call CallCycle (snd (run h w))) in
  polls during = flagged h w /\
  polls after =
    (if tableDispatch (snd w0) && (flagged h w =? 0)%nat then 1 else 0)%nat /\
  ((0 < flagged h w)%nat -> polls after = 0%nat) /\
  (tableDispatch (snd w0) = true -> flagged h w = 0%nat -> polls after = 1%nat) /\
  ((flagged h w <= 1)%nat -> (polls (during ++ after) <= 1)%nat) /\
  (forall bus d r,
     serviced d = Some r -> pollInterrupts r = true ->
     exists op v bus',
       isBusOp op = true /\
       honorPoll r d =
         ([Poll], set_pollInterrupts false r,
          set_pollInterruptsAfterLastInstruction false
            (set_lastResult (Some (set_pollInterrupts false r))
               (_pollInterrupts d))) /\
       cycle bus d =
         inr ([op; Poll], bus',
              advance (set_pollInterrupts false r) v
                (set_pollInterruptsAfterLastInstruction false
                   (set_lastResult (Some (set_pollInterrupts false r))
                      (_pollInterrupts d))))).
Proof.
  intros Hf0 Hwithin Hf1 w during after.
  destruct w0 as [bus0 d0].
  pose proof (cycle_fetches bus0 d0 Hf0) as [_ Hpa0].
  pose proof (run_within h w Hwithin) as [Hduring Hpa1].
  fold w in Hpa0. rewrite Hpa0 in Hpa1.
  change (fetches (snd (snd (run h w))) = true) in Hf1.
  change (polls during = flagged h w) in Hduring.
  assert (Hafter : polls after =
            (if tableDispatch d0 && (flagged h w =? 0)%nat then 1 else 0)%nat).
  { subst after. destruct (snd (run h w)) as [bus1 d1] eqn:Hw1.
    cbn [snd] in Hf1, Hpa1.
    pose proof (cycle_fetches bus1 d1 Hf1) as [Hp _].
    rewrite Hp, Hpa1. reflexivity. }
  cbn [snd].
  split; [ exact Hduring | ].
  split; [ exact Hafter | ].
  split.
  { intros Hpos. rewrite Hafter.
    destruct (flagged h w); [ lia | ]. cbn. rewrite andb_false_r. reflexivity. }
  split.
  { intros Ht Hz. rewrite Hafter, Ht, Hz. reflexivity. }
  split.
  { intros Hle. rewrite polls_app, Hduring, Hafter.
    destruct (flagged h w) as [|n]; cbn.
    - destruct (tableDispatch d0); cbn; lia.
    - rewrite andb_false_r. lia. }
  intros bus d r. apply cycle_honors_poll.
Qed.

(** *** Fetching an opcode that has no machine *)

Lemma fetch_frame (bus : Bus) (d : Cpu) :
  _invalidInstructionCallback (snd (_fetch bus d)) =
    _invalidInstructionCallback d /\
  _interruptPending (snd (_fetch bus d)) = _interruptPending (polled d) /\
  _nmiPending (snd (_fetch bus d)) = _nmiPending (polled d).
Proof.
  pose proof (polled_fields d) as (_ & Hcb & _).
  unfold _fetch.
  assert (Hev : (if _pollInterruptsAfterLastInstruction d
                 then ([Poll], _pollInterrupts d) else ([], d)) =
                (if _pollInterruptsAfterLastInstruction d then [Poll] else [],
                 polled d)).
  { unfold polled. destruct (_pollInterruptsAfterLastInstruction d); reflexivity. }
  rewrite Hev. clear Hev.
  destruct (bus_read bus _) as [opcode bus'].
  destruct (CpuInterface.nmi _); [ cbn; auto | ].
  destruct (irq _); [ cbn; auto | ].
  destruct (_operations opcode); [ cbn; auto | ].
  cbn [_invalidInstructionCallback set_state set_lastInstructionPointer
         set_pollInterruptsAfterLastInstruction].
  destruct (_invalidInstructionCallback (polled d)) eqn:E; cbn; rewrite E; auto.
Qed.

Lemma polled_quiet (d : Cpu) : quiet d -> quiet (polled d).
Proof.
  intros (Hnp & Hn & Hip & Hi). unfold polled.
  destruct (_pollInterruptsAfterLastInstruction d); [ | repeat split; assumption ].
  unfold _pollInterrupts. cbn [_nmiPending _interruptPending set_state].
  rewrite Hnp, Hip. cbn [andb]. repeat split; cbn; assumption.
Qed.

Lemma invalid_fetch_step (bus : Bus) (d : Cpu) :
  executionState d = fetch -> _halt d = false ->
  _invalidInstructionCallback d = None -> quiet d ->
  _operations (fst (bus_read bus (p (state d)))) = None ->
  busOps (fst (call CallCycle (bus, d))) = [BusRead (p (state d))] /\
  executionState (snd (snd (call CallCycle (bus, d)))) = fetch /\
  _halt (snd (snd (call CallCycle (bus, d)))) = false /\
  _invalidInstructionCallback (snd (snd (call CallCycle (bus, d)))) = None /\
  quiet (snd (snd (call CallCycle (bus, d)))) /\
  p (state (snd (snd (call CallCycle (bus, d))))) =
    (p (state d) + 1) mod 2 ^ 16.
Proof.
  intros Hph Hh Hcb Hq Hop.
  pose proof (polled_quiet d Hq) as (Qnp & Qn & Qip & Qi).
  cbn [call fst snd].
  rewrite cycle_fetch by (try apply frozen_halt; try rewrite Hph; auto).
  pose proof (fetch_frame bus d) as (Fcb & Fip & Fnp).
  destruct (fetch_spec bus d)
    as (evs & d' & Hf & Hbus & _ & _ & Hh' & _ & _ & Htab).
  rewrite Hf in *. cbn [fst snd] in *.
  destruct (Htab Qn Qi) as (Hst & _ & Hnone). rewrite Hop in Hnone.
  destruct Hnone as (Hes & _).
  split; [ exact Hbus | ].
  split; [ congruence | ].
  split; [ congruence | ].
  split; [ congruence | ].
  split.
  { unfold quiet. rewrite Hst. cbn [CpuInterface.nmi irq set_p].
    repeat split; congruence. }
  rewrite Hst. cbn [p set_p]. apply land_ffff.
Qed.

Lemma busOps_app (e1 e2 : list Event) : busOps (e1 ++ e2) = busOps e1 ++ busOps e2.
Proof. apply filter_app. Qed.

(** C2 (amended): with no callback installed, a fetch that reads an opcode
    with an empty table slot leaves the driver in phase [fetch] with [p]
    advanced by one.  So the following calls of [cycle] fetch again, each at
    the next address, for as long as the opcodes found there have no machine
    either: the [k]-th call reads [(p + k) mod 2^16], never the same address
    twice in a row. *)
Theorem invalid_opcode_advances (n : nat) (w : Bus * Cpu) :
  executionState (snd w) = fetch ->
  _halt (snd w) = false ->
  _invalidInstructionCallback (snd w) = None ->
  quiet (snd w) ->
  0 <= p (state (snd w)) < 2 ^ 16 ->
  readsInvalid n w ->
  executionState (snd (snd (run (repeat CallCycle n) w))) = fetch /\
  p (state (snd (snd (run (repeat CallCycle n) w)))) =
    (p (state (snd w)) + Z.of_nat n) mod 2 ^ 16 /\
  busOps (fst (run (repeat CallCycle n) w)) =
    map (fun k => BusRead ((p (state (snd w)) + Z.of_nat k) mod 2 ^ 16))
      (seq 0 n) /\
  busOps (fst (call CallCycle (snd (run (repeat CallCycle n) w)))) =
    [BusRead ((p (state (snd w)) + Z.of_nat n) mod 2 ^ 16)].
Proof.
  revert w. induction n as [|n IH]; intros [bus d] Hph Hh Hcb Hq Hp Hinv;
    cbn [fst snd] in *.
  - cbn [repeat run fst snd seq map]. rewrite Z.add_0_r, Z.mod_small by exact Hp.
    repeat split; try assumption.
    cbn [call fst snd].
    rewrite cycle_fetch by (try apply frozen_halt; try rewrite Hph; auto).
    destruct (fetch_spec bus d) as (evs & d' & Hf & Hbus & _).
    rewrite Hf. exact Hbus.
  - destruct Hinv as [Hop Hinv].
    destruct (invalid_fetch_step bus d Hph Hh Hcb Hq Hop)
      as (Sbus & Sph & Sh & Scb & Sq & Sp).
    cbn [repeat run].
    destruct (call CallCycle (bus, d)) as [ev w1] eqn:Hcall.
    cbn [fst snd] in *.
    assert (Hp1 : 0 <= p (state (snd w1)) < 2 ^ 16)
      by (rewrite Sp; apply Z.mod_pos_bound; lia).
    specialize (IH w1 Sph Sh Scb Sq Hp1 Hinv).
    destruct IH as (Iph & Ip & Ibus & Inext).
    destruct (run (repeat CallCycle n) w1) as [evs w2] eqn:Hrun.
    cbn [fst snd] in *.
    assert (Hshift : forall k,
              (p (state (snd w1)) + Z.of_nat k) mod 2 ^ 16 =
              (p (state d) + Z.of_nat (S k)) mod 2 ^ 16).
    { intros k. rewrite Sp, Zplus_mod_idemp_l. f_equal. lia. }
    split; [ exact Iph | ].
    split; [ rewrite Ip; apply Hshift | ].
    split.
    + rewrite busOps_app, Sbus, Ibus. cbn [seq map app].
      rewrite Z.add_0_r, Z.mod_small by exact Hp. f_equal.
      rewrite <- seq_shift, map_map. apply map_ext. intros k.
      f_equal. apply Hshift.
    + rewrite Inext. f_equal. f_equal. apply Hshift.
Qed.

Lemma reachable_run (h : list Call) (w : Bus * Cpu) :
  reachable w -> reachable (snd (run h w)).
Proof.
  revert w. induction h as [|c h IH]; intros w Hw; [ exact Hw | ].
  cbn [run].
  pose proof (reachable_call c w Hw) as Hc.
  destruct (call c w) as [ev w']. cbn [snd] in Hc.
  specialize (IH w' Hc).
  destruct (run h w') as [evs w'']. exact IH.
Qed.

(** *** Further properties of the driver *)

Lemma pollInterrupts_registers (d : Cpu) :
  a (state (_pollInterrupts d)) = a (state d) /\
  x (state (_pollInterrupts d)) = x (state d) /\
  y (state (_pollInterrupts d)) = y (state d) /\
  s (state (_pollInterrupts d)) = s (state d).
Proof.
  unfold _pollInterrupts.
  destruct d as [es st cb lr ip np h pa lip g]; cbn.
  destruct np; cbn; [ repeat split | ].
  destruct (ip && negb (CpuInterface.nmi st) && negb (flagI (set_irq false st)));
    cbn; repeat split.
Qed.

(** X1: polling twice in a row is the same as polling once. *)
Theorem pollInterrupts_idempotent (d : Cpu) :
  _pollInterrupts (_pollInterrupts d) = _pollInterrupts d.
Proof.
  unfold _pollInterrupts, flagI.
  destruct d as [es st cb lr ip np h pa lip g].
  destruct st as [va vx vy vs vp vf vi vn].
  cbn -[Z.land Z.eqb].
  destruct np, ip, vn; try reflexivity;
    cbn -[Z.land Z.eqb];
    destruct (Z.land vf _ =? 0) eqn:Ef; cbn -[Z.land Z.eqb];
    rewrite ?Ef; reflexivity.
Qed.

(** X2: whatever the generator answers, [reset] leaves [s = 0xFD], the
    flags I, B and E set, both latches, both request lines and [halt]
    cleared, the phase [boot] and the instruction pointer record at [0]. *)
Theorem reset_forces (d : Cpu) :
  s (state (reset d)) = 0xfd /\
  Z.testbit (flags (state (reset d))) 2 = true /\
  Z.testbit (flags (state (reset d))) 4 = true /\
  Z.testbit (flags (state (reset d))) 5 = true /\
  irq (state (reset d)) = false /\
  CpuInterface.nmi (state (reset d)) = false /\
  _interruptPending (reset d) = false /\
  _nmiPending (reset d) = false /\
  _halt (reset d) = false /\
  executionState (reset d) = boot /\
  getLastInstructionPointer (reset d) = 0.
Proof.
  unfold reset, getLastInstructionPointer.
  destruct (rngInt 0xff (_rng d)) as [va g1].
  destruct (rngInt 0xff g1) as [vx g2].
  destruct (rngInt 0xff g2) as [vy g3].
  destruct (rngInt 0xffff g3) as [vp g4].
  destruct (rngInt 0xff g4) as [vf g5].
  cbn [state s flags irq CpuInterface.nmi _interruptPending _nmiPending _halt
         executionState _lastInstructionPointer].
  repeat split; rewrite !Z.lor_spec; cbn; rewrite ?orb_true_r; reflexivity.
Qed.

(** X3: without a generator a second [reset] changes nothing, and [reset]
    keeps the installed callback. *)
Theorem reset_idempotent (d : Cpu) :
  _rng d = None ->
  reset (reset d) = reset d /\
  getInvalidInstructionCallback (reset d) = getInvalidInstructionCallback d.
Proof.
  intros Hrng. unfold reset, getInvalidInstructionCallback.
  rewrite Hrng. cbn. split; reflexivity.
Qed.

Lemma run_frozen (n : nat) (bus : Bus) (d : Cpu) :
  frozen d = true ->
  run (repeat CallCycle n ++ [CallResume]) (bus, d) = ([], (bus, resume d)).
Proof.
  intros Hfr. induction n as [|n IH]; [ reflexivity | ].
  cbn [repeat app run call fst snd].
  rewrite cycle_frozen by exact Hfr.
  cbn [repeat app] in IH. rewrite IH. reflexivity.
Qed.

(** X4: [halt], any number of [cycle] calls and [resume] on a driver that
    holds a read or is about to fetch do nothing at all: no event, the bus
    untouched, and a driver that was running is exactly as it was. *)
Theorem halt_cycles_resume (n : nat) (w : Bus * Cpu) :
  frozen (halt (snd w)) = true ->
  run (CallHalt :: repeat CallCycle n ++ [CallResume]) w =
    ([], (fst w, resume (snd w))) /\
  (_halt (snd w) = false -> resume (snd w) = snd w).
Proof.
  intros Hfr. destruct w as [bus d]. cbn [fst snd] in *.
  split.
  - cbn [run call fst snd]. rewrite (run_frozen n bus (halt d) Hfr).
    reflexivity.
  - intros Hh. destruct d as [es st cb lr ip np h pa lip g].
    cbn in Hh. subst h. reflexivity.
Qed.

Lemma polled_unfold (d : Cpu) :
  (if _pollInterruptsAfterLastInstruction d
   then ([Poll], _pollInterrupts d) else ([], d)) =
  (if _pollInterruptsAfterLastInstruction d then [Poll] else [], polled d).
Proof.
  unfold polled. destruct (_pollInterruptsAfterLastInstruction d); reflexivity.
Qed.

Lemma fetch_events (bus : Bus) (d : Cpu) :
  fst (fst (_fetch bus d)) =
    (if _pollInterruptsAfterLastInstruction d then [Poll] else [])
    ++ [BusRead (p (state d))]
    ++ (if reportsInvalid d (fst (bus_read bus (p (state d))))
        then [InvalidInstruction] else []).
Proof.
  pose proof (polled_p d) as Hp.
  pose proof (polled_fields d) as (_ & Hcb & _).
  unfold _fetch, reportsInvalid, tableDispatch.
  rewrite polled_unfold.
  cbn [state set_lastInstructionPointer]. rewrite Hp.
  destruct (bus_read bus (p (state d))) as [opcode bus']. cbn [fst].
  destruct (CpuInterface.nmi (state (polled d)));
    [ cbn; rewrite ?app_nil_r; reflexivity | ].
  destruct (irq (state (polled d)));
    [ cbn; rewrite ?app_nil_r; reflexivity | ].
  destruct (_operations opcode);
    [ cbn; rewrite ?app_nil_r; reflexivity | ].
  cbn [_invalidInstructionCallback set_state set_lastInstructionPointer
         set_pollInterruptsAfterLastInstruction negb andb].
  rewrite Hcb.
  destruct (_invalidInstructionCallback d); cbn [fst].
  - rewrite <- app_assoc. reflexivity.
  - rewrite app_nil_r. reflexivity.
Qed.

(** X5: an NMI requested before a fetch that polls is taken by that fetch,
    whatever the I flag and the IRQ line: the NMI machine starts, [p] and
    the registers stay, the request is consumed and the IRQ line is left as
    it was. *)
Theorem nmi_taken_at_polling_fetch (bus : Bus) (d : Cpu) :
  executionState d = fetch ->
  frozen d = false ->
  _pollInterruptsAfterLastInstruction d = true ->
  exists evs d',
    cycle bus (nmi d) = inr (evs, snd (bus_read bus (p (state d))), d') /\
    state d' = set_nmi true (set_irq false (state d)) /\
    executionState d' = execute /\
    _lastResult d' = Some (StateMachineInterface.reset opNmi (state d')) /\
    _nmiPending d' = false /\
    isInterrupt d' = isInterrupt d.
Proof.
  intros Hph Hfr Hpa.
  assert (Hpol : polled (nmi d) =
            set_nmiPending false
              (set_state (set_nmi true (set_irq false (state d))) (nmi d))).
  { unfold polled, nmi. cbn [_pollInterruptsAfterLastInstruction set_nmiPending].
    rewrite Hpa. reflexivity. }
  destruct (fetch_spec bus (nmi d))
    as (evs & d' & Hf & _ & _ & _ & _ & Hnmi & _).
  pose proof (fetch_frame bus (nmi d)) as (_ & Fip & Fnp).
  rewrite Hf in Fip, Fnp. cbn [snd] in Fip, Fnp.
  rewrite Hpol in Hnmi, Fip, Fnp.
  destruct (Hnmi eq_refl) as (Hst & Hes & Hlr & _).
  exists evs, d'.
  split. { rewrite cycle_fetch; [ rewrite Hf; reflexivity | exact Hfr | ].
           cbn. rewrite Hph. reflexivity. }
  split; [ exact Hst | ].
  split; [ exact Hes | ].
  split; [ rewrite Hlr, Hst; reflexivity | ].
  split; [ exact Fnp | exact Fip ].
Qed.

(** X6: an NMI requested after the instruction has polled is not taken by
    the next fetch.  With no latch set that fetch goes to the opcode table
    and does not poll; the request stays pending for the next poll. *)
Theorem nmi_after_poll_waits (bus : Bus) (d : Cpu) :
  executionState d = fetch ->
  frozen d = false ->
  _pollInterruptsAfterLastInstruction d = false ->
  CpuInterface.nmi (state d) = false ->
  irq (state d) = false ->
  exists evs d',
    cycle bus (nmi d) = inr (evs, snd (bus_read bus (p (state d))), d') /\
    polls evs = 0%nat /\
    CpuInterface.nmi (state d') = false /\
    p (state d') = (p (state d) + 1) mod 2 ^ 16 /\
    _nmiPending d' = true /\
    _pollInterruptsAfterLastInstruction d' = true.
Proof.
  intros Hph Hfr Hpa Hn Hi.
  assert (Hpol : polled (nmi d) = nmi d).
  { unfold polled, nmi. cbn [_pollInterruptsAfterLastInstruction set_nmiPending].
    rewrite Hpa. reflexivity. }
  destruct (fetch_spec bus (nmi d))
    as (evs & d' & Hf & _ & Hpolls & _ & _ & _ & _ & Htab).
  pose proof (fetch_frame bus (nmi d)) as (_ & _ & Fnp).
  rewrite Hf in Fnp. cbn [snd] in Fnp.
  rewrite Hpol in Htab, Fnp.
  destruct (Htab Hn Hi) as (Hst & Hpa' & _).
  exists evs, d'.
  split. { rewrite cycle_fetch; [ rewrite Hf; reflexivity | exact Hfr | ].
           cbn. rewrite Hph. reflexivity. }
  split. { rewrite Hpolls. cbn. rewrite Hpa. reflexivity. }
  split; [ rewrite Hst; exact Hn | ].
  split; [ rewrite Hst; apply land_ffff | ].
  split; [ exact Fnp | exact Hpa' ].
Qed.

(** X7: the IRQ line raised before a fetch that polls, with no NMI around:
    with I set the fetch goes on to the next opcode and no IRQ is latched;
    with I clear the IRQ machine starts and [p] stays. *)
Theorem irq_at_polling_fetch (bus : Bus) (d : Cpu) :
  executionState d = fetch ->
  frozen d = false ->
  _pollInterruptsAfterLastInstruction d = true ->
  _nmiPending d = false ->
  CpuInterface.nmi (state d) = false ->
  exists evs d',
    cycle bus (setInterrupt true d) =
      inr (evs, snd (bus_read bus (p (state d))), d') /\
    (Z.testbit (flags (state d)) 2 = true ->
       irq (state d') = false /\
       p (state d') = (p (state d) + 1) mod 2 ^ 16) /\
    (Z.testbit (flags (state d)) 2 = false ->
       irq (state d') = true /\
       p (state d') = p (state d) /\
       executionState d' = execute /\
       _lastResult d' = Some (StateMachineInterface.reset opIrq (state d'))).
Proof.
  intros Hph Hfr Hpa Hnp Hn.
  rewrite <- flagI_testbit.
  assert (Hpol : polled (setInterrupt true d) =
            set_state (set_irq (negb (flagI (state d))) (state d))
              (setInterrupt true d)).
  { unfold polled, setInterrupt, _pollInterrupts.
    cbn [_pollInterruptsAfterLastInstruction set_interruptPending _nmiPending
           _interruptPending state set_state].
    rewrite Hpa, Hnp, flagI_set_irq. cbn [CpuInterface.nmi set_irq].
    rewrite Hn. cbn [negb andb].
    destruct (flagI (state d)); reflexivity. }
  destruct (fetch_spec bus (setInterrupt true d))
    as (evs & d' & Hf & _ & _ & _ & _ & _ & Hirq & Htab).
  rewrite Hpol in Hirq, Htab.
  cbn [state set_state CpuInterface.nmi irq set_irq setInterrupt
         set_interruptPending] in Hirq, Htab.
  exists evs, d'.
  split. { rewrite cycle_fetch; [ rewrite Hf; reflexivity | exact Hfr | ].
           cbn. rewrite Hph. reflexivity. }
  split.
  - intros HI. rewrite HI in Htab. cbn [negb] in Htab.
    destruct (Htab Hn eq_refl) as (Hst & _).
    rewrite Hst. split; [ reflexivity | apply land_ffff ].
  - intros HI. rewrite HI in Hirq. cbn [negb] in Hirq.
    destruct (Hirq Hn eq_refl) as (Hst & Hes & Hlr & _).
    rewrite Hlr, Hst. repeat split. exact Hes.
Qed.

(** X8: in every state a history can reach, the driver is in phase
    [fetch] exactly when it holds no result. *)
Theorem reachable_fetch_iff_no_result (w : Bus * Cpu) :
  reachable w ->
  (executionState (snd w) = fetch <-> _lastResult (snd w) = None).
Proof.
  intros Hw. pose proof (reachable_coherent w Hw) as Hc.
  unfold coherent in Hc. split.
  - intros H. rewrite H in Hc. cbn in Hc.
    destruct (_lastResult (snd w)); [ discriminate | reflexivity ].
  - intros H. rewrite H in Hc. apply isFetch_true, Hc.
Qed.

(** X9: a call of [cycle] in phase [fetch] never changes A, X, Y, S or the
    flag byte, and [p] either stays or becomes [(p + 1) mod 2^16]. *)
Theorem fetch_keeps_registers (bus : Bus) (d : Cpu) evs bus' d' :
  executionState d = fetch ->
  cycle bus d = inr (evs, bus', d') ->
  a (state d') = a (state d) /\ x (state d') = x (state d) /\
  y (state d') = y (state d) /\ s (state d') = s (state d) /\
  flags (state d') = flags (state d) /\
  (p (state d') = p (state d) \/
   p (state d') = (p (state d) + 1) mod 2 ^ 16).
Proof.
  intros Hph Hcy.
  destruct (frozen d) eqn:Hfr.
  { rewrite cycle_frozen in Hcy by exact Hfr. injection Hcy as _ _ <-.
    repeat split. left. reflexivity. }
  rewrite cycle_fetch in Hcy by (try exact Hfr; rewrite Hph; reflexivity).
  destruct (fetch_spec bus d)
    as (evs0 & d0 & Hf & _ & _ & _ & _ & Hnmi & Hirq & Htab).
  rewrite Hf in Hcy. injection Hcy as _ _ <-.
  assert (Hreg :
    a (state (polled d)) = a (state d) /\ x (state (polled d)) = x (state d) /\
    y (state (polled d)) = y (state d) /\ s (state (polled d)) = s (state d) /\
    flags (state (polled d)) = flags (state d)).
  { unfold polled. destruct (_pollInterruptsAfterLastInstruction d);
      [ | repeat split ].
    pose proof (pollInterrupts_registers d) as (Ha & Hx & Hy & Hs).
    pose proof (pollInterrupts_frame d) as F.
    repeat split; try assumption. apply F. }
  pose proof (polled_p d) as Hp.
  destruct Hreg as (Ha & Hx & Hy & Hs & Hfl).
  destruct (CpuInterface.nmi (state (polled d))) eqn:En.
  { destruct (Hnmi eq_refl) as (Hst & _). rewrite Hst.
    repeat split; try assumption. left. exact Hp. }
  destruct (irq (state (polled d))) eqn:Ei.
  { destruct (Hirq eq_refl eq_refl) as (Hst & _). rewrite Hst.
    repeat split; try assumption. left. exact Hp. }
  destruct (Htab eq_refl eq_refl) as (Hst & _). rewrite Hst.
  cbn [a x y s flags p set_p].
  repeat split; try assumption. right. apply land_ffff.
Qed.

(** X10: [cycle] throws exactly when a driver that is neither held by
    [halt] nor in phase [fetch] holds no result or one whose cycle type is
    neither read nor write; the bus plays no part in it. *)
Theorem cycle_throws_iff (bus : Bus) (d : Cpu) (e : Error) :
  cycle bus d = inl e <->
  frozen d = false /\ executionState d <> fetch /\
  (_lastResult d = None /\ e = NullResult \/
   exists r tag,
     _lastResult d = Some r /\ cycleType r = unknown tag /\
     e = InvalidCycleType).
Proof.
  unfold cycle. split.
  - destruct (frozen d); [ discriminate | ].
    destruct (executionState d) eqn:Hes; cbn [isFetch]; try discriminate.
    + destruct (_lastResult d) as [r|].
      * destruct (cycleType r) as [| |tag] eqn:Hct.
        -- destruct (bus_read bus (address r)), (finish r _ d); discriminate.
        -- destruct (finish r _ d); discriminate.
        -- intros [= <-]. repeat split; try discriminate.
           right. exists r, tag. auto.
      * intros [= <-]. repeat split; try discriminate. left. auto.
    + destruct (_lastResult d) as [r|].
      * destruct (cycleType r) as [| |tag] eqn:Hct.
        -- destruct (bus_read bus (address r)), (finish r _ d); discriminate.
        -- destruct (finish r _ d); discriminate.
        -- intros [= <-]. repeat split; try discriminate.
           right. exists r, tag. auto.
      * intros [= <-]. repeat split; try discriminate. left. auto.
  - intros (Hfr & Hne & H). rewrite Hfr.
    destruct (executionState d); [ | contradiction | ]; cbn [isFetch];
      destruct H as [(-> & ->)|(r & tag & -> & -> & ->)]; reflexivity.
Qed.

Lemma cycle_events (bus : Bus) (d : Cpu) evs bus' d' :
  cycle bus d = inr (evs, bus', d') ->
  (frozen d = true /\ evs = []) \/
  (fetches d = true /\
   evs = (if _pollInterruptsAfterLastInstruction d then [Poll] else [])
         ++ [BusRead (p (state d))]
         ++ (if reportsInvalid d (fst (bus_read bus (p (state d))))
             then [InvalidInstruction] else [])) \/
  (fetches d = false /\
   exists r, serviced d = Some r /\
     evs = busOpOf r :: (if pollInterrupts r then [Poll] else [])).
Proof.
  intros Hcy. unfold fetches, serviced.
  destruct (frozen d) eqn:Hfr.
  { left. rewrite cycle_frozen in Hcy by assumption.
    injection Hcy as <- _ _. auto. }
  right. cbn [negb andb].
  destruct (isFetch (executionState d)) eqn:Hph.
  { left. rewrite cycle_fetch in Hcy by assumption.
    pose proof (fetch_events bus d) as He.
    injection Hcy as Hcy. rewrite Hcy in He. cbn [fst] in He. auto. }
  right. split; [ reflexivity | ].
  destruct (_lastResult d) as [r|] eqn:Hlr.
  2:{ unfold cycle in Hcy. rewrite Hfr, Hph, Hlr in Hcy. discriminate. }
  exists r. unfold busOpOf.
  destruct (cycleType r) eqn:Hct.
  - rewrite (cycle_read bus d r) in Hcy by assumption.
    injection Hcy as <- _ _. auto.
  - rewrite (cycle_write bus d r) in Hcy by assumption.
    injection Hcy as <- _ _. auto.
  - unfold cycle in Hcy. rewrite Hfr, Hph, Hlr, Hct in Hcy. discriminate.
Qed.

Lemma callbackCalls_app (e1 e2 : list Event) :
  callbackCalls (e1 ++ e2) = (callbackCalls e1 + callbackCalls e2)%nat.
Proof. unfold callbackCalls. rewrite filter_app, length_app. reflexivity. Qed.

(** X11: one call of [cycle] calls the invalid-instruction callback at
    most once, and it does so exactly when the call fetches, no interrupt
    latch takes the dispatch, the slot of the opcode read is empty and a
    callback is installed. *)
Theorem callback_called_iff (bus : Bus) (d : Cpu) evs bus' d' :
  cycle bus d = inr (evs, bus', d') ->
  callbackCalls evs =
    (if fetches d && reportsInvalid d (fst (bus_read bus (p (state d))))
     then 1 else 0)%nat.
Proof.
  intros Hcy.
  destruct (cycle_events bus d evs bus' d' Hcy)
    as [(Hfr & ->)|[(Hf & ->)|(Hf & r & _ & ->)]].
  - unfold fetches. rewrite Hfr. reflexivity.
  - rewrite Hf. cbn [andb]. rewrite !callbackCalls_app.
    destruct (_pollInterruptsAfterLastInstruction d);
      destruct (reportsInvalid d _); reflexivity.
  - rewrite Hf. cbn [andb]. unfold busOpOf.
    destruct (cycleType r), (pollInterrupts r); reflexivity.
Qed.

Lemma cycle_bus (bus : Bus) (d : Cpu) evs bus' d' :
  cycle bus d = inr (evs, bus', d') ->
  (frozen d = true /\ evs = [] /\ bus' = bus) \/
  (fetches d = true /\
   busOps evs = [BusRead (p (state d))] /\
   bus' = snd (bus_read bus (p (state d)))) \/
  (exists r,
     serviced d = Some r /\
     busOps evs = [busOpOf r] /\
     bus' = match cycleType r with
            | read => snd (bus_read bus (address r))
            | _ => bus_write bus (address r) (value r)
            end).
Proof.
  intros Hcy. unfold fetches, serviced.
  destruct (frozen d) eqn:Hfr.
  { left. rewrite cycle_frozen in Hcy by assumption.
    injection Hcy as <- <- _. auto. }
  right. cbn [negb andb].
  destruct (isFetch (executionState d)) eqn:Hph.
  { left. rewrite cycle_fetch in Hcy by assumption.
    destruct (fetch_spec bus d) as (evs0 & d0 & Hf & Hbus & _).
    rewrite Hf in Hcy. injection Hcy as <- <- _. auto. }
  right.
  destruct (_lastResult d) as [r|] eqn:Hlr.
  2:{ unfold cycle in Hcy. rewrite Hfr, Hph, Hlr in Hcy. discriminate. }
  exists r. unfold busOpOf.
  destruct (cycleType r) eqn:Hct.
  - rewrite (cycle_read bus d r) in Hcy by assumption.
    injection Hcy as <- <- _.
    rewrite busOps_cons_polls by reflexivity. auto.
  - rewrite (cycle_write bus d r) in Hcy by assumption.
    injection Hcy as <- <- _.
    rewrite busOps_cons_polls by reflexivity. auto.
  - unfold cycle in Hcy. rewrite Hfr, Hph, Hlr, Hct in Hcy. discriminate.
Qed.

(** X12: in any state, reachable or not, a call of [cycle] that returns
    uses the bus in exactly one of three ways: not at all when the driver
    is held by [halt], and then it leaves no trace; one read at [p] when it
    fetches; otherwise the single read or write of the result it services.
    It polls at most once. *)
Theorem cycle_trace_bounds (bus : Bus) (d : Cpu) evs bus' d' :
  cycle bus d = inr (evs, bus', d') ->
  ((frozen d = true /\ evs = [] /\ bus' = bus) \/
   (fetches d = true /\
    busOps evs = [BusRead (p (state d))] /\
    bus' = snd (bus_read bus (p (state d)))) \/
   (exists r,
      serviced d = Some r /\
      busOps evs = [busOpOf r] /\
      bus' = match cycleType r with
             | read => snd (bus_read bus (address r))
             | _ => bus_write bus (address r) (value r)
             end)) /\
  (polls evs <= 1)%nat /\
  (evs = [] <-> frozen d = true).
Proof.
  intros Hcy. split; [ apply (cycle_bus bus d evs bus' d' Hcy) | ].
  destruct (cycle_events bus d evs bus' d' Hcy)
    as [(Hfr & ->)|[(Hf & ->)|(Hf & r & Hs & ->)]].
  - cbn. repeat split; auto.
  - assert (Hfr : frozen d = false).
    { unfold fetches in Hf. destruct (frozen d); [ discriminate | reflexivity ]. }
    rewrite Hfr.
    destruct (_pollInterruptsAfterLastInstruction d);
      destruct (reportsInvalid d _); cbn;
      repeat split; auto; discriminate.
  - assert (Hfr : frozen d = false).
    { unfold serviced in Hs. destruct (frozen d); [ discriminate | reflexivity ]. }
    rewrite Hfr. unfold busOpOf.
    destruct (cycleType r), (pollInterrupts r); cbn;
      repeat split; auto; discriminate.
Qed.

(** X14: when [cycle] services a result, [nextStep] is given the value the
    bus returned for a read at the result's address, or the result's own
    value for a write, together with the registers exactly as they were:
    before the step the driver changes nothing but the two latches, and
    those only when the result asks for the poll.  What [nextStep] returns
    becomes the state and the result held. *)
Theorem execute_hands_over (bus : Bus) (d : Cpu) (r : Result) evs bus' d' :
  serviced d = Some r ->
  cycle bus d = inr (evs, bus', d') ->
  exists v st,
    (state d', _lastResult d') = nextStep r v st /\
    v = match cycleType r with
        | read => fst (bus_read bus (address r))
        | _ => value r
        end /\
    a st = a (state d) /\ x st = x (state d) /\ y st = y (state d) /\
    s st = s (state d) /\ p st = p (state d) /\
    flags st = flags (state d) /\
    (pollInterrupts r = false -> st = state d).
Proof.
  unfold serviced. intros Hs Hcy.
  destruct (frozen d) eqn:Hfr; [ discriminate | ].
  destruct (isFetch (executionState d)) eqn:Hph; [ discriminate | ].
  destruct (_lastResult d) as [r0|] eqn:Hlr; [ | discriminate ].
  pose proof (honored_fields r d) as (_ & _ & _ & _ & Hst).
  assert (Hregs :
    a (state (honored r d)) = a (state d) /\
    x (state (honored r d)) = x (state d) /\
    y (state (honored r d)) = y (state d) /\
    s (state (honored r d)) = s (state d) /\
    p (state (honored r d)) = p (state d) /\
    flags (state (honored r d)) = flags (state d) /\
    (pollInterrupts r = false -> state (honored r d) = state d)).
  { rewrite Hst. destruct (pollInterrupts r).
    - pose proof (pollInterrupts_registers d) as (Ha & Hx & Hy & Hs').
      pose proof (pollInterrupts_frame d) as F.
      repeat split; try assumption; try apply F. discriminate.
    - repeat split. }
  assert (Hadv : forall v,
    (state (advance r v (honored r d)), _lastResult (advance r v (honored r d))) =
    nextStep r v (state (honored r d))).
  { intros v. pose proof (advance_fields r v (honored r d)) as (Fs & Fl & _).
    rewrite Fs, Fl. symmetry. apply surjective_pairing. }
  destruct (cycleType r0) eqn:Hct; [ | | discriminate ]; injection Hs as ->.
  - rewrite (cycle_read bus d r) in Hcy by assumption.
    injection Hcy as _ _ <-. rewrite Hct.
    exists (fst (bus_read bus (address r))), (state (honored r d)).
    split; [ apply Hadv | ]. split; [ reflexivity | exact Hregs ].
  - rewrite (cycle_write bus d r) in Hcy by assumption.
    injection Hcy as _ _ <-. rewrite Hct.
    exists (value r), (state (honored r d)).
    split; [ apply Hadv | ]. split; [ reflexivity | exact Hregs ].
Qed.

Lemma replay_app (e1 e2 : list Event) (bus : Bus) :
  replay (e1 ++ e2) bus = replay e2 (replay e1 bus).
Proof.
  revert bus. induction e1 as [|e e1 IH]; intros bus; [ reflexivity | ].
  destruct e; cbn [app replay]; apply IH.
Qed.

Lemma call_trace_bounds (c : Call) (w : Bus * Cpu) :
  isBusActivity c = false ->
  fst (snd (call c w)) = replay (busOps (fst (call c w))) (fst w) /\
  (length (busOps (fst (call c w))) <= (if isCallCycle c then 1 else 0))%nat /\
  (polls (fst (call c w)) <= (if isCallCycle c then 1 else 0))%nat /\
  (callbackCalls (fst (call c w)) <= (if isCallCycle c then 1 else 0))%nat.
Proof.
  intros Hc.
  destruct c; try discriminate Hc; cbn [call fst snd isCallCycle];
    try (cbn; repeat split; lia).
  destruct (cycle (fst w) (snd w)) as [e|[[evs bus'] d']] eqn:Hcy;
    cbn [fst snd]; [ cbn; repeat split; lia | ].
  split.
  { destruct (cycle_bus _ _ _ _ _ Hcy)
      as [(_ & -> & ->)|[(_ & -> & ->)|(r & _ & -> & ->)]];
      [ reflexivity | reflexivity | ].
    unfold busOpOf. destruct (cycleType r); reflexivity. }
  destruct (cycle_events _ _ _ _ _ Hcy)
    as [(_ & ->)|[(_ & ->)|(_ & r & _ & ->)]].
  - cbn. repeat split; lia.
  - destruct (_pollInterruptsAfterLastInstruction (snd w));
      destruct (reportsInvalid (snd w) _); cbn; repeat split; lia.
  - unfold busOpOf. destruct (cycleType r), (pollInterrupts r);
      cbn; repeat split; lia.
Qed.

(** X15: over any history of calls of the driver's methods, from any
    state, the bus ends as the bus operations of the trace leave it, taken
    one after the other, and there are at most as many of them as [cycle]
    was called; the same bound holds for the polls and for the calls of the
    callback.  No other method touches the bus. *)
Theorem history_trace_bounds (h : list Call) (w : Bus * Cpu) :
  existsb isBusActivity h = false ->
  fst (snd (run h w)) = replay (busOps (fst (run h w))) (fst w) /\
  (length (busOps (fst (run h w))) <= cycleCalls h)%nat /\
  (polls (fst (run h w)) <= cycleCalls h)%nat /\
  (callbackCalls (fst (run h w)) <= cycleCalls h)%nat.
Proof.
  revert w. induction h as [|c h IH]; intros w Hh.
  - cbn. repeat split; lia.
  - cbn [existsb] in Hh. apply orb_false_elim in Hh as [Hc Hh].
    cbn [run]. pose proof (call_trace_bounds c w Hc) as (Hr & Hb & Hp & Hcb).
    destruct (call c w) as [ev w'] eqn:Hcall. cbn [fst snd] in Hr, Hb, Hp, Hcb.
    specialize (IH w' Hh).
    destruct (run h w') as [evs w'']. cbn [fst snd] in IH |- *.
    destruct IH as (Ir & Ib & Ip & Ic).
    rewrite busOps_app, length_app, polls_app, callbackCalls_app, replay_app.
    rewrite <- Hr. split; [ exact Ir | ].
    unfold cycleCalls in *. cbn [filter].
    destruct (isCallCycle c); cbn [length]; repeat split; lia.
Qed.

End StateMachineCpu.

Arguments executionState {Rng Callback} c.
Arguments state {Rng Callback} c.
Arguments _invalidInstructionCallback {Rng Callback} c.
Arguments _lastResult {Rng Callback} c.
Arguments _interruptPending {Rng Callback} c.
Arguments _nmiPending {Rng Callback} c.
Arguments _halt {Rng Callback} c.
Arguments _pollInterruptsAfterLastInstruction {Rng Callback} c.
Arguments _lastInstructionPointer {Rng Callback} c.
Arguments _rng {Rng Callback} c.
Arguments getLastInstructionPointer {Rng Callback} d.
Arguments frozen {Rng Callback} d.
Arguments fetches {Rng Callback} d.
Arguments tableDispatch {Rng Callback} d.
Arguments quiet {Rng Callback} d.
Arguments BusActivity {Bus Callback} bus.
Arguments CallCycle {Bus Callback}.
Arguments CallReset {Bus Callback}.
Arguments CallSetInterrupt {Bus Callback} i.
Arguments CallNmi {Bus Callback}.
Arguments CallHalt {Bus Callback}.
Arguments CallResume {Bus Callback}.
Arguments CallSetInvalidInstructionCallback {Bus Callback} cb.

(** ** A small machine to run the driver on *)

Module Toy.

(** A bus that is plain memory. *)
Definition Memory : Type := Z -> Z.
Definition mem_read (m : Memory) (addr : Z) : Z * Memory := (m addr, m).
Definition mem_write (m : Memory) (addr v : Z) : Memory :=
  fun k => if k =? addr then v else m k.

(** A generator that always answers its upper bound. *)
Definition gen_int (g : unit) (upper : Z) : Z * unit := (upper, g).

(** A machine of one bus cycle. *)
Definition single (t : CycleType) (addr v : Z) (poll : bool)
    (f : Z -> State -> State) : Result :=
  mkResult t addr v poll (fun bv st => (f bv st, None)).

Definition stack (st : State) : Z := Z.lor 0x0100 (s st).
Definition push (st : State) : State :=
  mkState (a st) (x st) (y st) (Z.land (s st - 1) 0xff) (p st) (flags st)
    (irq st) (CpuInterface.nmi st).
Definition setI (st : State) : State :=
  set_flags (Z.lor (flags st) Flags.i) st.
Definition clearI (st : State) : State :=
  set_flags (Z.land (flags st) (Z.lxor 0xff Flags.i)) st.

(** Boot in one cycle: read the vector byte at [$FFFC] into [p]. *)
Definition opBoot : StateMachine :=
  mkStateMachine (fun st =>
    single read 0xfffc 0 false (fun bv st' => setI (set_p bv st'))).

(** Interrupt entry in one cycle: push the low byte of [p], set I, take the
    latch and jump. *)
Definition entry (vector : Z) : StateMachine :=
  mkStateMachine (fun st =>
    single write (stack st) (Z.land (p st) 0xff) false
      (fun _ st' => set_nmi false (set_irq false (setI (set_p vector (push st')))))).

Definition opIrq : StateMachine := entry 0x10.
Definition opNmi : StateMachine := entry 0x20.

(** [CLI], [SEI] and [NOP]: one dummy read at [p] that asks for the poll. *)
Definition implied (f : State -> State) : StateMachine :=
  mkStateMachine (fun st => single read (p st) 0 true (fun _ st' => f st')).

(** Two pushes of [a] in a row, neither asking for the poll. *)
Definition twoPushes : StateMachine :=
  mkStateMachine (fun st =>
    mkResult write (stack st) (a st) false (fun _ st1 =>
      (push st1,
       Some (single write (stack (push st1)) (a st1) false (fun _ st2 => push st2))))).

Definition compile (op : Z) : option StateMachine :=
  if op =? 0x58 then Some (implied clearI)
  else if op =? 0x78 then Some (implied setI)
  else if op =? 0xea then Some (implied (fun st => st))
  else if op =? 0x48 then Some twoPushes
  else None.

Definition Cpu : Type := Cpu unit unit.
Definition cycle : Memory -> Cpu -> Error + list Event * Memory * Cpu :=
  cycle Memory mem_read mem_write unit unit opIrq opNmi compile.
Definition construct : option unit -> Cpu := construct unit gen_int unit opBoot.
Definition call : Call Memory unit -> Memory * Cpu -> list Event * (Memory * Cpu) :=
  call Memory mem_read mem_write unit gen_int unit opBoot opIrq opNmi compile.
Definition run : list (Call Memory unit) -> Memory * Cpu -> list Event * (Memory * Cpu) :=
  run Memory mem_read mem_write unit gen_int unit opBoot opIrq opNmi compile.

(** Memory holding [bytes] from address [0], zero elsewhere. *)
Definition program (bytes : list Z) : Memory :=
  fun k => if k <? 0 then 0 else nth (Z.to_nat k) bytes 0.

End Toy.

(** ** The driver on the small machine *)

Local Notation "'toy' f" :=
  (f Toy.Memory Toy.mem_read Toy.mem_write unit Toy.gen_int unit
     Toy.opBoot Toy.opIrq Toy.opNmi Toy.compile)
  (at level 10, f at level 9, only parsing).

Lemma single_valid (t : CycleType) (addr v : Z) (poll : bool)
    (f : Z -> State -> State) :
  validCycleType t -> validResult (Toy.single t addr v poll f).
Proof.
  intros Ht. constructor; [ exact Ht | ].
  intros bv st st' r' H. discriminate H.
Qed.

Lemma toy_machines_valid :
  validMachines Toy.opBoot Toy.opIrq Toy.opNmi Toy.compile.
Proof.
  assert (Himp : forall f, validMachine (Toy.implied f)).
  { intros f st. apply single_valid. left. reflexivity. }
  split; [ | split; [ | split ] ].
  - intros st. apply single_valid. left. reflexivity.
  - intros st. apply single_valid. right. reflexivity.
  - intros st. apply single_valid. right. reflexivity.
  - intros op m. unfold Toy.compile.
    destruct (op =? 0x58); [ intros [= <-]; apply Himp | ].
    destruct (op =? 0x78); [ intros [= <-]; apply Himp | ].
    destruct (op =? 0xea); [ intros [= <-]; apply Himp | ].
    destruct (op =? 0x48); [ intros [= <-] | discriminate ].
    intros st. constructor; [ right; reflexivity | ].
    intros bv st1 st' r' [= _ <-]. apply single_valid. right. reflexivity.
Qed.

(** Booted on a program. *)
Definition booted (bytes : list Z) : Toy.Memory * Toy.Cpu :=
  snd (Toy.run [CallCycle] (Toy.program bytes, Toy.construct None)).

(** [CLI], then [SEI] with the IRQ line raised in between: the poll of
    [SEI] latches the IRQ, and its last step sets I. *)
Definition latchedWithI : Toy.Memory * Toy.Cpu :=
  snd (Toy.run
         [CallCycle; CallCycle; CallSetInterrupt true; CallCycle; CallCycle]
         (booted [0x58; 0x78; 0xea])).

(** Halted in front of the first of two writes. *)
Definition haltedAtWrite : Toy.Memory * Toy.Cpu :=
  snd (Toy.run [CallCycle; CallHalt] (booted [0x48; 0xea])).

Lemma booted_reachable (bytes : list Z) : toy reachable (booted bytes).
Proof. unfold booted, Toy.run. apply reachable_run, reachable_new. Qed.

Lemma latchedWithI_reachable : toy reachable latchedWithI.
Proof. unfold latchedWithI, Toy.run. apply reachable_run, booted_reachable. Qed.

Lemma haltedAtWrite_reachable : toy reachable haltedAtWrite.
Proof. unfold haltedAtWrite, Toy.run. apply reachable_run, booted_reachable. Qed.

(** C2, as stated, fails: after the fetch of the empty opcode [0x02] at
    address [0] the driver is in phase [fetch], but the next call reads
    address [1], finds [NOP] there and leaves phase [fetch]. *)
Lemma invalid_opcode_not_reread :
  let w := booted [0x02; 0xea] in
  let w' := snd (Toy.call CallCycle w) in
  executionState (snd w) = fetch /\
  _invalidInstructionCallback (snd w) = None /\
  p (state (snd w)) = 0 /\
  fst (Toy.mem_read (fst w) 0) = 0x02 /\
  _operations Toy.compile 0x02 = None /\
  fst (Toy.call CallCycle w) = [BusRead 0] /\
  executionState (snd w') = fetch /\
  fst (Toy.call CallCycle w') = [Poll; BusRead 1] /\
  executionState (snd (snd (Toy.call CallCycle w'))) = execute.
Proof. vm_compute. repeat split. Qed.

Lemma invalid_opcode_advances_witness :
  toy readsInvalid 2%nat (booted [0x02; 0x03; 0xea]) /\
  executionState
    (snd (snd (Toy.run [CallCycle; CallCycle] (booted [0x02; 0x03; 0xea])))) =
    fetch /\
  p (state
       (snd (snd (Toy.run [CallCycle; CallCycle] (booted [0x02; 0x03; 0xea]))))) =
    2 /\
  busOps (fst (Toy.run [CallCycle; CallCycle] (booted [0x02; 0x03; 0xea]))) =
    [BusRead 0; BusRead 1] /\
  busOps
    (fst (Toy.call CallCycle
            (snd (Toy.run [CallCycle; CallCycle] (booted [0x02; 0x03; 0xea]))))) =
    [BusRead 2].
Proof.
  assert (Hinv : toy readsInvalid 2%nat (booted [0x02; 0x03; 0xea]))
    by (vm_compute; auto).
  split; [ exact Hinv | ].
  pose proof (toy invalid_opcode_advances 2%nat (booted [0x02; 0x03; 0xea])) as H.
  vm_compute in H. vm_compute.
  apply H; try reflexivity; auto.
  split; [ discriminate | reflexivity ].
Defined.

(** C3, as stated, fails: with the [irq] latch set and the I flag set the
    fetch starts IRQ entry and leaves [p] at [2]; it does not go on to the
    opcode table with [p = 3]. *)
Lemma fetch_irq_latch_ignores_I :
  let w := latchedWithI in
  let d' := snd (snd (Toy.call CallCycle w)) in
  executionState (snd w) = fetch /\
  frozen (snd w) = false /\
  CpuInterface.nmi (state (snd w)) = false /\
  irq (state (snd w)) = true /\
  Z.testbit (flags (state (snd w))) 2 = true /\
  p (state (snd w)) = 2 /\
  fst (Toy.call CallCycle w) = [BusRead 2] /\
  p (state d') = 2 /\
  p (state d') <> (2 + 1) mod 2 ^ 16 /\
  option_map address (_lastResult d') =
    Some (address (StateMachineInterface.reset Toy.opIrq (state (snd w)))) /\
  option_map address (_lastResult d') <>
    option_map (fun m => address (StateMachineInterface.reset m (set_p 3 (state (snd w)))))
      (_operations Toy.compile (fst (Toy.mem_read (fst w) 2))).
Proof. vm_compute. repeat split; discriminate. Qed.

Lemma fetch_dispatch_witness :
  executionState (snd latchedWithI) = fetch /\
  frozen (snd latchedWithI) = false /\
  exists evs d',
    Toy.cycle (fst latchedWithI) (snd latchedWithI) =
      inr (evs, fst latchedWithI, d') /\
    busOps evs = [BusRead 2] /\
    state d' = state (snd latchedWithI) /\
    executionState d' = execute.
Proof.
  pose proof (fetch_dispatch Toy.Memory Toy.mem_read Toy.mem_write unit unit
                Toy.opIrq Toy.opNmi Toy.compile
                (fst latchedWithI) (snd latchedWithI)) as H.
  vm_compute in H. vm_compute.
  split; [ reflexivity | ]. split; [ reflexivity | ].
  destruct (H eq_refl eq_refl) as (evs & d' & Hcy & Hbus & _ & Hirq & _).
  exists evs, d'. split; [ exact Hcy | ]. split; [ exact Hbus | ].
  destruct (Hirq eq_refl eq_refl) as (Hst & Hes & _).
  split; [ exact Hst | exact Hes ].
Defined.

(** An instruction of two reads that both ask for the poll, in the table
    slot of opcode [0x00] beside the other instructions. *)
Definition twoPolls : StateMachine :=
  mkStateMachine (fun st =>
    mkResult read (p st) 0 true (fun _ st1 =>
      (st1, Some (Toy.single read (p st1) 0 true (fun _ st2 => st2))))).

Definition compileWithTwoPolls (op : Z) : option StateMachine :=
  if op =? 0x00 then Some twoPolls else Toy.compile op.

Local Notation "'polling' f" :=
  (f Toy.Memory Toy.mem_read Toy.mem_write unit Toy.gen_int unit
     Toy.opBoot Toy.opIrq Toy.opNmi compileWithTwoPolls)
  (at level 10, f at level 9, only parsing).

(** Booted in front of that instruction. *)
Definition atTwoPolls : Toy.Memory * Toy.Cpu :=
  snd (polling run [CallCycle] (Toy.program [0x00; 0xea], Toy.construct None)).

Lemma twoPolls_valid : validMachine twoPolls.
Proof.
  intros st. constructor; [ left; reflexivity | ].
  intros bv st1 st' r' [= _ <-]. apply single_valid. left. reflexivity.
Qed.

(** C5, as stated, fails: an instruction from the opcode table whose two
    results both ask for the poll is polled twice between its fetch and the
    next one. *)
Lemma polled_twice_in_one_instruction :
  validMachine twoPolls /\
  polling reachable atTwoPolls /\
  fetches (snd atTwoPolls) = true /\
  tableDispatch (snd atTwoPolls) = true /\
  polling withinInstruction [CallCycle; CallCycle]
    (snd (polling call CallCycle atTwoPolls)) = true /\
  fetches
    (snd (snd (polling run [CallCycle; CallCycle]
                 (snd (polling call CallCycle atTwoPolls))))) = true /\
  fst (polling run [CallCycle; CallCycle]
         (snd (polling call CallCycle atTwoPolls))) =
    [BusRead 1; Poll; BusRead 1; Poll] /\
  polls (fst (polling run [CallCycle; CallCycle]
                (snd (polling call CallCycle atTwoPolls)))) = 2%nat.
Proof.
  split; [ exact twoPolls_valid | ].
  split; [ unfold atTwoPolls; apply reachable_run, reachable_new | ].
  vm_compute. repeat split.
Qed.

Lemma poll_once_per_boundary_witness :
  let w0 := booted [0x48; 0xea; 0xea] in
  let w := snd (Toy.call CallCycle w0) in
  let w1 := snd (Toy.run [CallCycle; CallCycle] w) in
  let w2 := snd (Toy.call CallCycle w1) in
  (fetches (snd w0) = true /\
   polls (fst (Toy.run [CallCycle; CallCycle] w)) = 0%nat /\
   polls (fst (Toy.call CallCycle w1)) = 1%nat) /\
  (fetches (snd w1) = true /\
   polls (fst (Toy.run [CallCycle] w2)) = 1%nat /\
   polls (fst (Toy.call CallCycle (snd (Toy.run [CallCycle] w2)))) = 0%nat).
Proof.
  assert (H : forall w0 h,
    fetches (snd w0) = true ->
    toy withinInstruction h (snd (Toy.call CallCycle w0)) = true ->
    fetches (snd (snd (Toy.run h (snd (Toy.call CallCycle w0))))) = true ->
    polls (fst (Toy.run h (snd (Toy.call CallCycle w0)))) =
      toy flagged h (snd (Toy.call CallCycle w0)) /\
    polls (fst (Toy.call CallCycle
                  (snd (Toy.run h (snd (Toy.call CallCycle w0)))))) =
      (if tableDispatch (snd w0)
          && (toy flagged h (snd (Toy.call CallCycle w0)) =? 0)%nat
       then 1 else 0)%nat).
  { intros w0 h H0 H1 H2.
    destruct (toy poll_once_per_boundary w0 h H0 H1 H2) as (Hd & Ha & _).
    split; [ exact Hd | exact Ha ]. }
  pose proof (H (booted [0x48; 0xea; 0xea]) [CallCycle; CallCycle]) as H1.
  pose proof (H (snd (Toy.run [CallCycle; CallCycle]
                        (snd (Toy.call CallCycle (booted [0x48; 0xea; 0xea])))))
                [CallCycle]) as H2.
  clear H. vm_compute in H1. vm_compute in H2. vm_compute.
  destruct (H1 eq_refl eq_refl eq_refl) as (Hd1 & Ha1).
  destruct (H2 eq_refl eq_refl eq_refl) as (Hd2 & Ha2).
  repeat split; assumption.
Defined.

Lemma halted_cycle_witness :
  _halt (snd haltedAtWrite) = true /\
  (exists evs d',
     Toy.cycle (fst haltedAtWrite) (snd haltedAtWrite) =
       inr (evs, Toy.mem_write (fst haltedAtWrite) 0x1fd 0, d') /\
     busOps evs = [BusWrite 0x1fd 0]) /\
  (forall evs bus' d',
     Toy.cycle (fst haltedAtWrite) (snd haltedAtWrite) = inr (evs, bus', d') ->
     busReads evs = []).
Proof.
  pose proof (toy halted_cycle haltedAtWrite haltedAtWrite_reachable) as H.
  pose (r := StateMachineInterface.reset Toy.twoPushes (state (snd haltedAtWrite))).
  assert (H' :
    _halt (snd haltedAtWrite) = true ->
    _lastResult (snd haltedAtWrite) = Some r -> cycleType r = write ->
    (exists evs d',
       Toy.cycle (fst haltedAtWrite) (snd haltedAtWrite) =
         inr (evs, Toy.mem_write (fst haltedAtWrite) (address r) (value r), d') /\
       busOps evs = [BusWrite (address r) (value r)]) /\
    (forall evs bus' d',
       Toy.cycle (fst haltedAtWrite) (snd haltedAtWrite) = inr (evs, bus', d') ->
       busReads evs = [])).
  { intros Hh Hlr Hct. destruct (H Hh) as (_ & Hw & Hr).
    split; [ exact (Hw r Hlr Hct) | exact Hr ]. }
  clear H. subst r. vm_compute in H'. vm_compute.
  split; [ reflexivity | ]. exact (H' eq_refl eq_refl eq_refl).
Defined.

Lemma one_bus_operation_witness :
  _halt (snd (booted [0xea])) = false /\
  (exists evs d',
     Toy.cycle (fst (booted [0xea])) (snd (booted [0xea])) =
       inr (evs, snd (Toy.mem_read (fst (booted [0xea])) 0), d') /\
     busOps evs = [BusRead 0]) /\
  (exists evs d',
     Toy.cycle (fst haltedAtWrite) (snd haltedAtWrite) =
       inr (evs, Toy.mem_write (fst haltedAtWrite) 0x1fd 0, d') /\
     busOps evs = [BusWrite 0x1fd 0]).
Proof.
  assert (H1 :
    frozen (snd (booted [0xea])) = false ->
    executionState (snd (booted [0xea])) = fetch ->
    exists evs d',
      Toy.cycle (fst (booted [0xea])) (snd (booted [0xea])) =
        inr (evs,
             snd (Toy.mem_read (fst (booted [0xea]))
                    (p (state (snd (booted [0xea]))))), d') /\
      busOps evs = [BusRead (p (state (snd (booted [0xea]))))]).
  { intros Hfr Hph.
    destruct (toy one_bus_operation (booted [0xea]) toy_machines_valid
                (booted_reachable _)) as (_ & _ & H).
    destruct (H Hfr) as [Hf _]. exact (Hf Hph). }
  assert (H2 :
    frozen (snd haltedAtWrite) = false ->
    executionState (snd haltedAtWrite) <> fetch ->
    exists r evs d',
      _lastResult (snd haltedAtWrite) = Some r /\
      (cycleType r = read /\
       Toy.cycle (fst haltedAtWrite) (snd haltedAtWrite) =
         inr (evs, snd (Toy.mem_read (fst haltedAtWrite) (address r)), d') /\
       busOps evs = [BusRead (address r)] \/
       cycleType r = write /\
       Toy.cycle (fst haltedAtWrite) (snd haltedAtWrite) =
         inr (evs, Toy.mem_write (fst haltedAtWrite) (address r) (value r), d') /\
       busOps evs = [BusWrite (address r) (value r)])).
  { intros Hfr Hph.
    destruct (toy one_bus_operation haltedAtWrite toy_machines_valid
                haltedAtWrite_reachable) as (_ & _ & H).
    destruct (H Hfr) as [_ Hx]. exact (Hx Hph). }
  vm_compute in H1. vm_compute in H2. vm_compute.
  split; [ reflexivity | ]. split; [ exact (H1 eq_refl eq_refl) | ].
  destruct (H2 eq_refl ltac:(discriminate))
    as (r & evs & d' & Hlr & [(Hct & _)|(Hct & Hcy & Hbus)]).
  - injection Hlr as <-. discriminate Hct.
  - injection Hlr as <-. exists evs, d'. split; [ exact Hcy | exact Hbus ].
Defined.

Lemma cycle_never_throws_witness :
  exists evs bus' d',
    Toy.cycle (fst haltedAtWrite) (snd haltedAtWrite) = inr (evs, bus', d').
Proof.
  exact (toy cycle_never_throws haltedAtWrite toy_machines_valid
           haltedAtWrite_reachable).
Defined.

Lemma halted_write_advances_witness :
  _halt (snd haltedAtWrite) = true /\
  s (state (snd haltedAtWrite)) = 0xfd /\
  exists evs d',
    Toy.cycle (fst haltedAtWrite) (snd haltedAtWrite) =
      inr (evs, Toy.mem_write (fst haltedAtWrite) 0x1fd 0, d') /\
    s (state d') = 0xfc /\
    option_map cycleType (_lastResult d') = Some write /\
    _halt d' = true /\
    executionState d' = execute.
Proof.
  pose (r := StateMachineInterface.reset Toy.twoPushes
               (state (snd haltedAtWrite))).
  assert (H :
    _halt (snd haltedAtWrite) = true ->
    _lastResult (snd haltedAtWrite) = Some r -> cycleType r = write ->
    exists evs d',
      Toy.cycle (fst haltedAtWrite) (snd haltedAtWrite) =
        inr (evs, Toy.mem_write (fst haltedAtWrite) (address r) (value r), d') /\
      s (state d') =
        s (fst (nextStep r (value r) (state (snd haltedAtWrite)))) /\
      option_map cycleType (_lastResult d') =
        option_map cycleType
          (snd (nextStep r (value r) (state (snd haltedAtWrite)))) /\
      _halt d' = true /\
      executionState d' =
        match snd (nextStep r (value r) (state (snd haltedAtWrite))) with
        | None => fetch
        | Some _ => executionState (snd haltedAtWrite)
        end).
  { intros Hh Hlr Hct.
    destruct (toy halted_write_advances haltedAtWrite r
                haltedAtWrite_reachable Hh Hlr Hct)
      as (evs & d' & Hcy & Hnext & Hh' & Hes & _).
    exists evs, d'. split; [ exact Hcy | ].
    assert (Hp : pollInterrupts r = false) by reflexivity.
    rewrite Hp in Hnext. cbv beta iota in Hnext.
    pose proof (f_equal fst Hnext) as Hst.
    pose proof (f_equal snd Hnext) as Hl.
    cbn [fst snd] in Hst, Hl. rewrite Hl in Hes. rewrite Hst, Hl.
    split; [ reflexivity | ]. split; [ reflexivity | ].
    split; [ exact Hh' | exact Hes ]. }
  subst r. vm_compute in H. vm_compute.
  split; [ reflexivity | ]. split; [ reflexivity | ].
  exact (H eq_refl eq_refl eq_refl).
Defined.

(** C1, as stated, fails: the flag byte after [reset] is [0x34], not
    [0x24]; bit [B = 0x10] is set too. *)
Lemma reset_flags_not_0x24 :
  flags (state (Toy.construct None)) = 0x34 /\
  flags (state (Toy.construct None)) <> 0x24 /\
  Z.land (flags (state (Toy.construct None))) Flags.b = Flags.b.
Proof.
  repeat split. intro H. discriminate H.
Qed.

Lemma reset_without_rng_witness :
  let d' := Toy.construct None in
  a (state d') = 0 /\ x (state d') = 0 /\ y (state d') = 0 /\
  s (state d') = 0xfd /\
  flags (state d') = 0x34 /\
  flags (state d') = Z.lor Flags.i (Z.lor Flags.e Flags.b) /\
  irq (state d') = false /\ CpuInterface.nmi (state d') = false /\
  _interruptPending d' = false /\ _nmiPending d' = false /\
  _halt d' = false.
Proof.
  apply (reset_without_rng unit Toy.gen_int unit Toy.opBoot
           (initial unit unit None)).
  reflexivity.
Defined.

(** *** The further properties on the small machine *)

Local Notation "'toy8' f" :=
  (f Toy.Memory Toy.mem_read Toy.mem_write unit unit
     Toy.opIrq Toy.opNmi Toy.compile)
  (at level 10, f at level 9, only parsing).

(** After an instruction of two writes that never asks for the poll: at
    the fetch, with the carried-over poll due. *)
Definition afterPushes : Toy.Memory * Toy.Cpu :=
  snd (Toy.run [CallCycle; CallCycle; CallCycle] (booted [0x48; 0xea])).

(** At the fetch of the empty opcode [0x02], with a callback installed. *)
Definition watched : Toy.Memory * Toy.Cpu :=
  snd (Toy.run [CallSetInvalidInstructionCallback (Some tt)] (booted [0x02])).

Lemma reset_idempotent_witness :
  reset unit Toy.gen_int unit Toy.opBoot (Toy.construct None) =
    Toy.construct None.
Proof.
  destruct (reset_idempotent unit Toy.gen_int unit Toy.opBoot
              (initial unit unit None) eq_refl) as [H _].
  exact H.
Defined.

Lemma halt_cycles_resume_witness :
  Toy.run (CallHalt :: repeat CallCycle 3 ++ [CallResume]) (booted [0xea]) =
    ([], booted [0xea]).
Proof.
  pose proof (toy halt_cycles_resume 3%nat (booted [0xea])) as H.
  vm_compute in H. vm_compute.
  destruct (H eq_refl) as [H1 _]. exact H1.
Defined.

Lemma nmi_taken_at_polling_fetch_witness :
  exists evs d',
    Toy.cycle (fst afterPushes) (nmi unit unit (snd afterPushes)) =
      inr (evs, fst afterPushes, d') /\
    executionState d' = execute /\
    p (state d') = 1 /\
    CpuInterface.nmi (state d') = true /\
    _nmiPending d' = false.
Proof.
  pose proof (toy8 nmi_taken_at_polling_fetch
                (fst afterPushes) (snd afterPushes)) as H.
  vm_compute in H. vm_compute.
  destruct (H eq_refl eq_refl eq_refl)
    as (evs & d' & Hcy & Hst & Hes & _ & Hnp & _).
  exists evs, d'. rewrite Hst. repeat split; assumption.
Defined.

Lemma nmi_after_poll_waits_witness :
  exists evs d',
    Toy.cycle (fst (booted [0xea])) (nmi unit unit (snd (booted [0xea]))) =
      inr (evs, fst (booted [0xea]), d') /\
    polls evs = 0%nat /\
    p (state d') = 1 /\
    _nmiPending d' = true.
Proof.
  pose proof (toy8 nmi_after_poll_waits
                (fst (booted [0xea])) (snd (booted [0xea]))) as H.
  vm_compute in H. vm_compute.
  destruct (H eq_refl eq_refl eq_refl eq_refl eq_refl)
    as (evs & d' & Hcy & Hpolls & _ & Hp & Hnp & _).
  exists evs, d'. repeat split; assumption.
Defined.

Lemma irq_at_polling_fetch_witness :
  Z.testbit (flags (state (snd afterPushes))) 2 = true /\
  exists evs d',
    Toy.cycle (fst afterPushes) (setInterrupt unit unit true (snd afterPushes)) =
      inr (evs, fst afterPushes, d') /\
    irq (state d') = false /\
    p (state d') = 2.
Proof.
  pose proof (toy8 irq_at_polling_fetch
                (fst afterPushes) (snd afterPushes)) as H.
  vm_compute in H. vm_compute.
  split; [ reflexivity | ].
  destruct (H eq_refl eq_refl eq_refl eq_refl eq_refl)
    as (evs & d' & Hcy & Hset & _).
  exists evs, d'. split; [ exact Hcy | ]. exact (Hset eq_refl).
Defined.

Lemma reachable_fetch_iff_no_result_witness :
  executionState (snd (booted [0xea])) = fetch <->
  _lastResult (snd (booted [0xea])) = None.
Proof.
  exact (toy reachable_fetch_iff_no_result (booted [0xea])
           (booted_reachable _)).
Defined.

Lemma fetch_keeps_registers_witness :
  flags (state (snd (snd (Toy.call CallCycle (booted [0x58]))))) =
    flags (state (snd (booted [0x58]))) /\
  s (state (snd (snd (Toy.call CallCycle (booted [0x58]))))) = 0xfd /\
  p (state (snd (snd (Toy.call CallCycle (booted [0x58]))))) = 1.
Proof.
  pose proof (toy8 fetch_keeps_registers
                (fst (booted [0x58])) (snd (booted [0x58]))
                (fst (Toy.call CallCycle (booted [0x58])))
                (fst (snd (Toy.call CallCycle (booted [0x58]))))
                (snd (snd (Toy.call CallCycle (booted [0x58]))))) as H.
  vm_compute in H. vm_compute.
  destruct (H eq_refl eq_refl) as (_ & _ & _ & Hs & Hf & _).
  repeat split; assumption.
Defined.

Lemma callback_called_iff_witness :
  callbackCalls (fst (Toy.call CallCycle watched)) = 1%nat.
Proof.
  pose proof (toy8 callback_called_iff
                (fst watched) (snd watched)
                (fst (Toy.call CallCycle watched))
                (fst (snd (Toy.call CallCycle watched)))
                (snd (snd (Toy.call CallCycle watched)))) as H.
  vm_compute in H. vm_compute. exact (H eq_refl).
Defined.

Lemma cycle_trace_bounds_witness :
  fst (snd (Toy.call CallCycle haltedAtWrite)) =
    Toy.mem_write (fst haltedAtWrite) 0x1fd 0 /\
  busOps (fst (Toy.call CallCycle haltedAtWrite)) = [BusWrite 0x1fd 0] /\
  (polls (fst (Toy.call CallCycle haltedAtWrite)) <= 1)%nat.
Proof.
  assert (H :
    toy8 cycle (fst haltedAtWrite) (snd haltedAtWrite) =
      inr (fst (Toy.call CallCycle haltedAtWrite),
           fst (snd (Toy.call CallCycle haltedAtWrite)),
           snd (snd (Toy.call CallCycle haltedAtWrite))) ->
    fst (snd (Toy.call CallCycle haltedAtWrite)) =
      replay Toy.Memory Toy.mem_read Toy.mem_write (busOps (fst (Toy.call CallCycle haltedAtWrite)))
        (fst haltedAtWrite) /\
    (polls (fst (Toy.call CallCycle haltedAtWrite)) <= 1)%nat).
  { intros Hcy.
    destruct (toy8 cycle_trace_bounds _ _ _ _ _ Hcy) as (Hbus & Hp & _).
    split; [ | exact Hp ].
    destruct Hbus as [(_ & -> & ->)|[(_ & -> & ->)|(r & _ & -> & ->)]];
      [ reflexivity | reflexivity | ].
    unfold busOpOf. destruct (cycleType r); reflexivity. }
  vm_compute in H. vm_compute.
  destruct (H eq_refl) as (Hb & Hp).
  split; [ exact Hb | ]. split; [ reflexivity | exact Hp ].
Defined.

Lemma history_trace_bounds_witness :
  fst (snd (Toy.run [CallCycle; CallCycle; CallResume; CallCycle] haltedAtWrite)) =
    Toy.mem_write (Toy.mem_write (fst haltedAtWrite) 0x1fd 0) 0x1fc 0 /\
  busOps (fst (Toy.run [CallCycle; CallCycle; CallResume; CallCycle] haltedAtWrite)) =
    [BusWrite 0x1fd 0; BusWrite 0x1fc 0; BusRead 1].
Proof.
  assert (H :
    fst (snd (Toy.run [CallCycle; CallCycle; CallResume; CallCycle] haltedAtWrite)) =
      replay Toy.Memory Toy.mem_read Toy.mem_write
        (busOps (fst (Toy.run [CallCycle; CallCycle; CallResume; CallCycle]
                        haltedAtWrite)))
        (fst haltedAtWrite)).
  { apply (toy history_trace_bounds
             [CallCycle; CallCycle; CallResume; CallCycle] haltedAtWrite).
    reflexivity. }
  vm_compute in H. vm_compute. split; [ exact H | reflexivity ].
Defined.

Lemma execute_hands_over_witness :
  exists v st,
    (state (snd (snd (Toy.call CallCycle haltedAtWrite))),
     _lastResult (snd (snd (Toy.call CallCycle haltedAtWrite)))) =
      nextStep (StateMachineInterface.reset Toy.twoPushes
                  (state (snd haltedAtWrite))) v st /\
    v = 0 /\ st = state (snd haltedAtWrite).
Proof.
  pose (r := StateMachineInterface.reset Toy.twoPushes
               (state (snd haltedAtWrite))).
  assert (H :
    serviced unit unit (snd haltedAtWrite) = Some r ->
    toy8 cycle (fst haltedAtWrite) (snd haltedAtWrite) =
      inr (fst (Toy.call CallCycle haltedAtWrite),
           fst (snd (Toy.call CallCycle haltedAtWrite)),
           snd (snd (Toy.call CallCycle haltedAtWrite))) ->
    pollInterrupts r = false ->
    exists v st,
      (state (snd (snd (Toy.call CallCycle haltedAtWrite))),
       _lastResult (snd (snd (Toy.call CallCycle haltedAtWrite)))) =
        nextStep r v st /\
      v = match cycleType r with
          | read => fst (Toy.mem_read (fst haltedAtWrite) (address r))
          | _ => value r
          end /\
      st = state (snd haltedAtWrite)).
  { intros Hs Hcy Hp.
    destruct (toy8 execute_hands_over
                (fst haltedAtWrite) (snd haltedAtWrite) r
                (fst (Toy.call CallCycle haltedAtWrite))
                (fst (snd (Toy.call CallCycle haltedAtWrite)))
                (snd (snd (Toy.call CallCycle haltedAtWrite))) Hs)
      as (v & st & Hn & Hv & _ & _ & _ & _ & _ & _ & Hst).
    - exact Hcy.
    - exists v, st. split; [ exact Hn | ]. split; [ exact Hv | exact (Hst Hp) ]. }
  subst r. vm_compute in H. vm_compute.
  exact (H eq_refl eq_refl eq_refl).
Defined.

(** ** The test runner of the state machines: [Runner.ts] *)

Module Runner.

(** [incrementP], [decrementS] and [incrementS]: a copy of the state with
    one register changed; all three mask with [0xffff]. *)
Definition incrementP (st : State) : State :=
  mkState (a st) (x st) (y st) (s st) (Z.land (p st + 1) 0xffff) (flags st)
    (irq st) (CpuInterface.nmi st).
Definition decrementS (st : State) : State :=
  mkState (a st) (x st) (y st) (Z.land (s st - 1) 0xffff) (p st) (flags st)
    (irq st) (CpuInterface.nmi st).
Definition incrementS (st : State) : State :=
  mkState (a st) (x st) (y st) (Z.land (s st + 1) 0xffff) (p st) (flags st)
    (irq st) (CpuInterface.nmi st).

(** What a call [action(this._state)] does.  The action is handed the
    live state object, which it may change, and returns an object: either
    that same object ([None]) or another one, with the contents given. *)
Definition Action : Type := State -> State * option State.

(** An action that, like the three helpers above, leaves its argument as
    it is and returns a new object. *)
Definition copying (f : State -> State) : Action :=
  fun st => (st, Some (f st)).

(** [Runner.Cycle]: the expected result and the optional action that
    gives the expected state. *)
Record Cycle : Type := mkCycle {
  result : Result;
  action : option Action
}.

(** [Builder].  [_currentCycle] is the cycle under construction; it enters
    [_cycles] when the next one is begun or when [run] is called. *)
Module Builder.

Record Builder : Type := mkBuilder {
  _currentCycle : option Cycle;
  _cycles : list Cycle
}.

(** [Runner.build()] *)
Definition build : Builder := mkBuilder None [].

Definition _pushCurrentCycle (b : Builder) : Builder :=
  match _currentCycle b with
  | Some c => mkBuilder (Some c) (_cycles b ++ [c])
  | None => b
  end.

(** The result a builder writes down; its [nextStep] is never called. *)
Definition expected (t : CycleType) (addr v : Z) : Result :=
  mkResult t addr v false (fun _ st => (st, None)).

Definition read (addr v : Z) (b : Builder) : Builder :=
  mkBuilder (Some (mkCycle (expected StateMachineInterface.read addr v) None))
    (_cycles (_pushCurrentCycle b)).

Definition write (addr v : Z) (b : Builder) : Builder :=
  mkBuilder (Some (mkCycle (expected StateMachineInterface.write addr v) None))
    (_cycles (_pushCurrentCycle b)).

(** [action] and [pollInterrupts] assign to a field of [_currentCycle];
    with no cycle begun that is a property access on [null], here [None]. *)
Definition action (f : Action) (b : Builder) : option Builder :=
  match _currentCycle b with
  | Some c => Some (mkBuilder (Some (mkCycle (result c) (Some f))) (_cycles b))
  | None => None
  end.

Definition pollInterrupts (b : Builder) : option Builder :=
  match _currentCycle b with
  | Some c =>
      Some (mkBuilder
              (Some (mkCycle (set_pollInterrupts true (result c)) (Runner.action c)))
              (_cycles b))
  | None => None
  end.

(** The cycles [run] hands to the runner. *)
Definition cyclesForRun (b : Builder) : list Cycle :=
  _cycles (_pushCurrentCycle b).

(** A chain of builder calls. *)
Inductive Op : Type :=
| ORead (addr v : Z)
| OWrite (addr v : Z)
| OAction (f : Action)
| OPoll.

Definition apply (o : Op) (b : Builder) : option Builder :=
  match o with
  | ORead addr v => Some (read addr v b)
  | OWrite addr v => Some (write addr v b)
  | OAction f => action f b
  | OPoll => pollInterrupts b
  end.

Fixpoint chain (ops : list Op) (b : Builder) : option Builder :=
  match ops with
  | [] => Some b
  | o :: ops' =>
      match apply o b with
      | Some b' => chain ops' b'
      | None => None
      end
  end.

(** What a call contributes to the bus sequence. *)
Definition access (o : Op) : list (CycleType * Z * Z) :=
  match o with
  | ORead addr v => [(StateMachineInterface.read, addr, v)]
  | OWrite addr v => [(StateMachineInterface.write, addr, v)]
  | _ => []
  end.

Definition accessOf (c : Cycle) : CycleType * Z * Z :=
  (cycleType (result c), address (result c), value (result c)).

Definition beginsCycle (o : Op) : bool :=
  match o with ORead _ _ | OWrite _ _ => true | _ => false end.

End Builder.

Definition CycleType_eqb (t1 t2 : CycleType) : bool :=
  match t1, t2 with
  | read, read => true
  | write, write => true
  | unknown n1, unknown n2 => n1 =? n2
  | _, _ => false
  end.

(** [deepEqual] on two states. *)
Definition State_eqb (s1 s2 : State) : bool :=
  (a s1 =? a s2) && (x s1 =? x s2) && (y s1 =? y s2) && (s s1 =? s s2)
  && (p s1 =? p s2) && (flags s1 =? flags s2)
  && Bool.eqb (irq s1) (irq s2)
  && Bool.eqb (CpuInterface.nmi s1) (CpuInterface.nmi s2).

(** The errors [run] throws, with what their messages show. *)
Inductive RunError : Type :=
| ExpectedToComplete (steps : nat)
| CycleTypeMismatch (expected : CycleType)
| AddressMismatch (expected actual : Z)
| ValueMismatch (expected actual : Z)
| PollExpected (step : nat)
| PollUnexpected (step : nat)
| StateMismatch (step : nat) (expected actual : State)
| CompletedEarly (step steps : nat).

(** The [while] loop of [run] and the check after it.  [rest] holds the
    cycles from index [step] on and [total] is [this._cycles.length].
    [stateExpected] is what the action returned, or a copy of the state
    taken before the step; when it is the live state object itself,
    [deepEqual] compares that object with itself. *)
Fixpoint loop (total : nat) (rest : list Cycle) (step : nat)
    (resultActual : option Result) (st : State) : RunError + nat * State :=
  match resultActual with
  | None =>
      match rest with
      | [] => inr (step, st)
      | _ :: _ => inl (CompletedEarly step total)
      end
  | Some ra =>
      match rest with
      | [] => inl (ExpectedToComplete total)
      | cycle :: rest' =>
          let resultExpected := result cycle in
          let '(live, stateExpected) :=
            match action cycle with
            | Some f => f st
            | None => (st, Some st)
            end in
          if negb (CycleType_eqb (cycleType ra) (cycleType resultExpected))
          then inl (CycleTypeMismatch (cycleType resultExpected))
          else if negb (address ra =? address resultExpected)
          then inl (AddressMismatch (address resultExpected) (address ra))
          else if CycleType_eqb (cycleType resultExpected) write
                  && negb (value resultExpected =? value ra)
          then inl (ValueMismatch (value resultExpected) (value ra))
          else if pollInterrupts resultExpected && negb (pollInterrupts ra)
          then inl (PollExpected step)
          else if negb (pollInterrupts resultExpected) && pollInterrupts ra
          then inl (PollUnexpected step)
          else
            let (st', next) :=
              nextStep (set_pollInterrupts false ra) (value resultExpected)
                live in
            match stateExpected with
            | None => loop total rest' (S step) next st'
            | Some expected =>
                if State_eqb expected st'
                then loop total rest' (S step) next st'
                else inl (StateMismatch (S step) expected st')
            end
      end
  end.

(** [run(operand)], for the machine's [reset(operand)] on the shared state
    as [machine]. *)
Definition run (cycles : list Cycle) (st : State)
    (machine : State -> option Result) : RunError + nat * State :=
  loop (length cycles) cycles 0 (machine st) st.

(** What the runner does with the action of a cycle before the step: the
    state the machine then works on, and the object to compare with. *)
Definition expectation (c : Cycle) (st : State) : State * option State :=
  match action c with
  | Some f => f st
  | None => (st, Some st)
  end.

(** The machine does what the cycles say: cycle by cycle the same kind and
    address, the same value on a write, the same poll flag, and after the
    step, taken with the value of the expected cycle on the state as the
    action left it, the state is the one the action returned as a new
    object (the state as it was, with no action); an action that returned
    the live state object asks for nothing.  Both end together. *)
Inductive conforms : list Cycle -> option Result -> State -> State -> Prop :=
| conforms_done (st : State) : conforms [] None st st
| conforms_step (c : Cycle) (rest : list Cycle) (ra : Result)
    (st st1 st' : State) (next : option Result) :
    cycleType ra = cycleType (result c) ->
    address ra = address (result c) ->
    (cycleType (result c) = write -> value ra = value (result c)) ->
    StateMachineInterface.pollInterrupts ra =
      StateMachineInterface.pollInterrupts (result c) ->
    nextStep ra (value (result c)) (fst (expectation c st)) = (st1, next) ->
    (forall expected, snd (expectation c st) = Some expected -> st1 = expected) ->
    conforms rest next st1 st' ->
    conforms (c :: rest) (Some ra) st st'.

Lemma CycleType_eqb_eq (t1 t2 : CycleType) :
  CycleType_eqb t1 t2 = true <-> t1 = t2.
Proof.
  destruct t1, t2; cbn; split; intros H; try congruence; try discriminate.
  - apply Z.eqb_eq in H. congruence.
  - injection H as ->. apply Z.eqb_refl.
Qed.

Lemma State_eqb_eq (s1 s2 : State) : State_eqb s1 s2 = true <-> s1 = s2.
Proof.
  unfold State_eqb. split.
  - intros H. repeat (apply andb_prop in H as [H ?]).
    destruct s1, s2; cbn in *.
    repeat match goal with
           | E : (_ =? _) = true |- _ => apply Z.eqb_eq in E
           | E : Bool.eqb _ _ = true |- _ => apply Bool.eqb_prop in E
           end.
    congruence.
  - intros ->. rewrite !Z.eqb_refl, !Bool.eqb_reflx. reflexivity.
Qed.

Lemma land_ffff_small (v : Z) : 0 <= v <= 0xffff -> Z.land v 0xffff = v.
Proof.
  intros H. change 0xffff with (Z.ones 16). rewrite Z.land_ones by lia.
  apply Z.mod_small. change (2 ^ 16) with 65536. lia.
Qed.

(** X16: on a stack pointer within 16 bits [incrementS] and [decrementS]
    undo each other, wrapping between [0xffff] and [0], and both keep every
    other register; they do not wrap at 8 bits. *)
Theorem incrementS_decrementS (st : State) :
  0 <= s st <= 0xffff ->
  decrementS (incrementS st) = st /\
  incrementS (decrementS st) = st /\
  (s st = 0xff -> s (incrementS st) = 0x100) /\
  (s st = 0 -> s (decrementS st) = 0xffff).
Proof.
  intros Hs. destruct st as [va vx vy vs vp vf vi vn]. cbn [s] in Hs.
  unfold incrementS, decrementS. cbn [a x y s p flags irq CpuInterface.nmi].
  assert (Hinc : Z.land (Z.land (vs + 1) 0xffff - 1) 0xffff = vs).
  { change 0xffff with (Z.ones 16). rewrite !Z.land_ones by lia.
    change (2 ^ 16) with 65536.
    destruct (Z.eq_dec vs 65535) as [->|Hne]; [ reflexivity | ].
    rewrite (Z.mod_small (vs + 1)) by lia.
    replace (vs + 1 - 1) with vs by lia. apply Z.mod_small. lia. }
  assert (Hdec : Z.land (Z.land (vs - 1) 0xffff + 1) 0xffff = vs).
  { change 0xffff with (Z.ones 16). rewrite !Z.land_ones by lia.
    change (2 ^ 16) with 65536.
    destruct (Z.eq_dec vs 0) as [->|Hne]; [ reflexivity | ].
    rewrite (Z.mod_small (vs - 1)) by lia.
    replace (vs - 1 + 1) with vs by lia. apply Z.mod_small. lia. }
  rewrite Hinc, Hdec.
  repeat split; intros ->; reflexivity.
Qed.

Lemma loop_conforms (total : nat) (rest : list Cycle) :
  forall step actual st n st',
    loop total rest step actual st = inr (n, st') ->
    conforms rest actual st st' /\ n = (step + length rest)%nat.
Proof.
  induction rest as [|c rest IH]; intros step actual st n st' H.
  - destruct actual as [ra|]; cbn in H; [ discriminate | ].
    injection H as <- <-. split; [ constructor | cbn; lia ].
  - destruct actual as [ra|]; cbn [loop] in H; [ | discriminate ].
    fold (expectation c st) in H.
    destruct (expectation c st) as [live stateExpected] eqn:Ex.
    destruct (CycleType_eqb (cycleType ra) (cycleType (result c))) eqn:Et;
      cbn [negb] in H; [ | discriminate ].
    destruct (address ra =? address (result c)) eqn:Ea;
      cbn [negb] in H; [ | discriminate ].
    destruct (CycleType_eqb (cycleType (result c)) write
              && negb (value (result c) =? value ra)) eqn:Ev; [ discriminate | ].
    destruct (StateMachineInterface.pollInterrupts (result c)
              && negb (StateMachineInterface.pollInterrupts ra)) eqn:Ep1;
      [ discriminate | ].
    destruct (negb (StateMachineInterface.pollInterrupts (result c))
              && StateMachineInterface.pollInterrupts ra) eqn:Ep2;
      [ discriminate | ].
    cbn [nextStep set_pollInterrupts] in H.
    destruct (nextStep ra (value (result c)) live) as [st1 next] eqn:En.
    assert (Hexp : forall expected, stateExpected = Some expected -> st1 = expected).
    { intros expected ->. destruct (State_eqb expected st1) eqn:Es;
        [ | discriminate ].
      apply State_eqb_eq in Es. congruence. }
    assert (Hloop : loop total rest (S step) next st1 = inr (n, st')).
    { destruct stateExpected as [expected|]; [ | exact H ].
      rewrite (Hexp expected eq_refl) in H.
      replace (State_eqb expected expected) with true in H
        by (symmetry; apply State_eqb_eq; reflexivity).
      rewrite <- (Hexp expected eq_refl) in H. exact H. }
    destruct (IH _ _ _ _ _ Hloop) as [Hc Hn].
    split; [ | cbn [length]; lia ].
    eapply conforms_step; try eassumption.
    + apply CycleType_eqb_eq, Et.
    + apply Z.eqb_eq, Ea.
    + intros Hw. rewrite Hw in Ev. cbn in Ev.
      apply negb_false_iff, Z.eqb_eq in Ev. congruence.
    + destruct (StateMachineInterface.pollInterrupts (result c)),
        (StateMachineInterface.pollInterrupts ra); cbn in *; congruence.
    + rewrite Ex. exact En.
    + rewrite Ex. exact Hexp.
Qed.

Lemma conforms_loop (total : nat) (rest : list Cycle) :
  forall step actual st st',
    conforms rest actual st st' ->
    loop total rest step actual st = inr ((step + length rest)%nat, st').
Proof.
  intros step actual st st' H. revert step.
  induction H as [st|c rest ra st st1 st' next Ht Ha Hv Hp Hn Hs Hc IH];
    intros step.
  - cbn. rewrite Nat.add_0_r. reflexivity.
  - cbn [loop]. fold (expectation c st).
    destruct (expectation c st) as [live stateExpected] eqn:Ex.
    cbn [fst snd] in Hn, Hs.
    rewrite Ht, Ha, Hp, Z.eqb_refl.
    assert (Et : CycleType_eqb (cycleType (result c)) (cycleType (result c)) = true)
      by (apply CycleType_eqb_eq; reflexivity).
    rewrite Et. cbn [negb].
    assert (Ev : CycleType_eqb (cycleType (result c)) write
                 && negb (value (result c) =? value ra) = false).
    { destruct (CycleType_eqb (cycleType (result c)) write) eqn:Ew;
        [ | reflexivity ].
      apply CycleType_eqb_eq in Ew. rewrite (Hv Ew), Z.eqb_refl. reflexivity. }
    rewrite Ev.
    assert (Hpp : forall b : bool, b && negb b = false) by (intros []; reflexivity).
    assert (Hnp : forall b : bool, negb b && b = false) by (intros []; reflexivity).
    rewrite Hpp, Hnp.
    cbn [nextStep set_pollInterrupts]. rewrite Hn.
    assert (Hgo : loop total rest (S step) next st1 =
                  inr ((step + length (c :: rest))%nat, st')).
    { rewrite IH. cbn [length]. f_equal. f_equal. lia. }
    destruct stateExpected as [expected|]; [ | exact Hgo ].
    rewrite <- (Hs expected eq_refl).
    replace (State_eqb st1 st1) with true
      by (symmetry; apply State_eqb_eq; reflexivity).
    exact Hgo.
Qed.

(** X17: [run] returns normally exactly when the machine conforms to the
    expected cycles, and then it has taken as many steps as there are
    cycles.  The value of an expected read is not compared with anything:
    it is what the machine is given as the bus value.  The state is
    compared with what the action returned only when that is a new object;
    an action that returns the state object it was given is compared with
    itself and checks nothing. *)
Theorem run_succeeds_iff_conforms (cycles : list Cycle) (st : State)
    (machine : State -> option Result) (n : nat) (st' : State) :
  run cycles st machine = inr (n, st') <->
  conforms cycles (machine st) st st' /\ n = length cycles.
Proof.
  unfold run. split.
  - intros H. apply loop_conforms in H. exact H.
  - intros [Hc ->]. rewrite (conforms_loop _ _ 0%nat _ _ _ Hc). reflexivity.
Qed.

Lemma chain_begun (ops : list Builder.Op) :
  forall b,
    Builder._currentCycle b <> None ->
    exists b',
      Builder.chain ops b = Some b' /\ Builder._currentCycle b' <> None.
Proof.
  induction ops as [|o ops IH]; intros b Hb.
  - exists b. auto.
  - cbn [Builder.chain].
    destruct (Builder._currentCycle b) as [c|] eqn:Hc; [ | contradiction ].
    destruct o; cbn [Builder.apply]; unfold Builder.action, Builder.pollInterrupts;
      rewrite ?Hc; apply IH; cbn; discriminate.
Qed.

Lemma cyclesForRun_apply (o : Builder.Op) (b b' : Builder.Builder) :
  Builder.apply o b = Some b' ->
  map Builder.accessOf (Builder.cyclesForRun b') =
    map Builder.accessOf (Builder.cyclesForRun b) ++ Builder.access o.
Proof.
  unfold Builder.cyclesForRun, Builder._pushCurrentCycle.
  destruct o; cbn [Builder.apply Builder.access];
    unfold Builder.read, Builder.write, Builder.action, Builder.pollInterrupts,
      Builder._pushCurrentCycle;
    destruct (Builder._currentCycle b) as [c|]; intros [= <-]; cbn;
    rewrite ?map_app, ?app_nil_r; reflexivity.
Qed.

Lemma cyclesForRun_chain (ops : list Builder.Op) :
  forall b b',
    Builder.chain ops b = Some b' ->
    map Builder.accessOf (Builder.cyclesForRun b') =
      map Builder.accessOf (Builder.cyclesForRun b)
      ++ flat_map Builder.access ops.
Proof.
  induction ops as [|o ops IH]; intros b b' H.
  - injection H as <-. cbn. rewrite app_nil_r. reflexivity.
  - cbn [Builder.chain] in H.
    destruct (Builder.apply o b) as [b1|] eqn:Ho; [ | discriminate ].
    rewrite (IH _ _ H), (cyclesForRun_apply _ _ _ Ho).
    cbn [flat_map]. rewrite app_assoc. reflexivity.
Qed.

(** X18: a chain of builder calls on a new builder fails exactly when it
    starts with [action] or [pollInterrupts]; otherwise the cycles it hands
    to the runner are the reads and writes of the chain, in the order of
    the calls. *)
Theorem builder_chain (ops : list Builder.Op) :
  (Builder.chain ops Builder.build = None <->
   exists o ops', ops = o :: ops' /\ Builder.beginsCycle o = false) /\
  (forall b,
     Builder.chain ops Builder.build = Some b ->
     map Builder.accessOf (Builder.cyclesForRun b) =
       flat_map Builder.access ops).
Proof.
  split.
  - destruct ops as [|o ops].
    { cbn. split; [ discriminate | intros (o & ops' & H & _); discriminate ]. }
    destruct o; cbn [Builder.chain Builder.apply].
    + destruct (chain_begun ops (Builder.read addr v Builder.build))
        as (b' & -> & _); [ cbn; discriminate | ].
      split; [ discriminate | intros (o & ops' & [= <- <-] & H); discriminate ].
    + destruct (chain_begun ops (Builder.write addr v Builder.build))
        as (b' & -> & _); [ cbn; discriminate | ].
      split; [ discriminate | intros (o & ops' & [= <- <-] & H); discriminate ].
    + cbn. split; [ intros _; eexists; eexists; split; reflexivity | reflexivity ].
    + cbn. split; [ intros _; eexists; eexists; split; reflexivity | reflexivity ].
  - intros b H. rewrite (cyclesForRun_chain _ _ _ H). reflexivity.
Qed.

End Runner.

Lemma incrementS_decrementS_witness :
  Runner.decrementS (Runner.incrementS (mkState 0 0 0 0xff 0 0x34 false false)) =
    mkState 0 0 0 0xff 0 0x34 false false /\
  s (Runner.incrementS (mkState 0 0 0 0xff 0 0x34 false false)) = 0x100.
Proof.
  destruct (Runner.incrementS_decrementS
              (mkState 0 0 0 0xff 0 0x34 false false))
    as (H1 & _ & H3 & _).
  - cbn. lia.
  - split; [ exact H1 | exact (H3 eq_refl) ].
Defined.
